(** * ecom-learn-backend: the query-features utility and the review aggregation

    A shallow embedding of
      - [src/utils/apifeatures.ts] (class [ApiFeatures]: [search], [filter],
        [pagination]), and
      - the review handlers and the product listing of
        [src/controllers/productController.ts] ([createProductReview],
        [deleteReview], [getAllProducts]), and
      - the error middleware ([errorMiddleware]),
    together with the fragment of JavaScript they run on.

    Conventions of the model.
      - A JavaScript string is a [string]: one [ascii] per code unit, for code
        units below 256.
      - A JavaScript number is a [JsNum]: an exact rational, the two
        infinities, or NaN.  Binary rounding, overflow and the sign of zero are
        not represented.
      - Reading a document ([Product.findById]) is an input of a handler, the
        document it persists is its result.  The handler works on a document
        of the object-document mapper: a value assigned to a path of type
        Number goes through the cast of that type.
      - The document store is not part of the repository; [Store] models the
        conditions that [ApiFeatures] builds on the scalar fields of a
        product, and the way [query.find] merges them. *)

From Stdlib Require Import ZArith QArith.
From Stdlib Require Import Bool List String Ascii DecimalString Lia.
From Stdlib Require Qcanon.
Import ListNotations.

Set Warnings "-register-all".

Local Open Scope string_scope.
Local Open Scope Z_scope.

(** ** JavaScript numbers *)

Module JS.

Inductive JsNum : Type :=
| Fin (q : Q)
| PosInf
| NegInf
| NaN.

Definition of_Z (z : Z) : JsNum := Fin (inject_Z z).
Definition of_nat (n : nat) : JsNum := of_Z (Z.of_nat n).

Definition Qsgn (q : Q) : Z := Z.sgn (Qnum q).

(** [a + b] on numbers. *)
Definition num_add (a b : JsNum) : JsNum :=
  match a, b with
  | NaN, _ | _, NaN => NaN
  | PosInf, NegInf | NegInf, PosInf => NaN
  | PosInf, _ | _, PosInf => PosInf
  | NegInf, _ | _, NegInf => NegInf
  | Fin p, Fin q => Fin (Qred (p + q))
  end.

Definition num_neg (a : JsNum) : JsNum :=
  match a with
  | Fin p => Fin (Qred (- p))
  | PosInf => NegInf
  | NegInf => PosInf
  | NaN => NaN
  end.

(** [a - b] on numbers. *)
Definition num_sub (a b : JsNum) : JsNum := num_add a (num_neg b).

(** The infinity of sign [s], NaN for [s = 0]. *)
Definition signed_inf (s : Z) : JsNum :=
  match s with
  | Z0 => NaN
  | Zpos _ => PosInf
  | Zneg _ => NegInf
  end.

Definition num_sgn (a : JsNum) : option Z :=
  match a with
  | Fin p => Some (Qsgn p)
  | PosInf => Some 1
  | NegInf => Some (-1)
  | NaN => None
  end.

(** [a * b] on numbers. *)
Definition num_mul (a b : JsNum) : JsNum :=
  match a, b with
  | Fin p, Fin q => Fin (Qred (p * q))
  | _, _ =>
      match num_sgn a, num_sgn b with
      | Some s, Some t => signed_inf (s * t)
      | _, _ => NaN
      end
  end.

(** [a / b] on numbers. *)
Definition num_div (a b : JsNum) : JsNum :=
  match a, b with
  | NaN, _ | _, NaN => NaN
  | Fin p, Fin q =>
      if Qeq_bool q 0 then signed_inf (Qsgn p) else Fin (Qred (p / q))
  | Fin _, _ => Fin 0
  | _, Fin q => signed_inf (match num_sgn a with
                            | Some s => s * (if Qeq_bool q 0 then 1 else Qsgn q)
                            | None => 0
                            end)
  | _, _ => NaN
  end.

(** ToBoolean on a number: [0] and [NaN] are falsy. *)
Definition num_truthy (a : JsNum) : bool :=
  match a with
  | Fin p => negb (Qeq_bool p 0)
  | PosInf | NegInf => true
  | NaN => false
  end.

(** [a < b], [a <= b] on numbers (false as soon as one side is NaN). *)
Definition num_ltb (a b : JsNum) : bool :=
  match a, b with
  | NaN, _ | _, NaN => false
  | _, NegInf | PosInf, _ => false
  | NegInf, _ | _, PosInf => true
  | Fin p, Fin q => negb (Qle_bool q p)
  end.

Definition num_eqb (a b : JsNum) : bool :=
  match a, b with
  | Fin p, Fin q => Qeq_bool p q
  | PosInf, PosInf | NegInf, NegInf => true
  | _, _ => false
  end.

Definition num_leb (a b : JsNum) : bool := num_ltb a b || num_eqb a b.

(** *** StringToNumber: the grammar StringNumericLiteral of ECMA-262 *)

Definition code (c : ascii) : nat := nat_of_ascii c.

(** White space and line terminators among the code units below 256. *)
Definition is_ws (c : ascii) : bool :=
  existsb (Nat.eqb (code c)) [9; 10; 11; 12; 13; 32; 160]%nat.

Fixpoint trim_start (l : list ascii) : list ascii :=
  match l with
  | c :: r => if is_ws c then trim_start r else l
  | [] => []
  end.

Definition trim (l : list ascii) : list ascii :=
  rev (trim_start (rev (trim_start l))).

(** The value of [c] as a digit in [base] (2, 8, 10 or 16). *)
Definition digit_of (base : Z) (c : ascii) : option Z :=
  let n := Z.of_nat (code c) in
  let v := if (48 <=? n) && (n <=? 57) then Some (n - 48)
           else if (97 <=? n) && (n <=? 102) then Some (n - 87)
           else if (65 <=? n) && (n <=? 70) then Some (n - 55)
           else None in
  match v with
  | Some d => if d <? base then Some d else None
  | None => None
  end.

Definition is_digit (c : ascii) : bool :=
  match digit_of 10 c with Some _ => true | None => false end.

Fixpoint digits_val (base : Z) (l : list ascii) (acc : Z) : option Z :=
  match l with
  | [] => Some acc
  | c :: r =>
      match digit_of base c with
      | Some d => digits_val base r (acc * base + d)
      | None => None
      end
  end.

(** The longest prefix of decimal digits, and what follows it. *)
Fixpoint span_digits (l : list ascii) : list ascii * list ascii :=
  match l with
  | c :: r =>
      if is_digit c then let (d, t) := span_digits r in (c :: d, t)
      else ([], l)
  | [] => ([], [])
  end.

(** A sign, if any, and what follows it. *)
Definition take_sign (l : list ascii) : bool * list ascii :=
  match l with
  | "-"%char :: r => (true, r)
  | "+"%char :: r => (false, r)
  | _ => (false, l)
  end.

(** ExponentPart, absent or [e]/[E], an optional sign and digits. *)
Definition exponent_of (l : list ascii) : option Z :=
  match l with
  | [] => Some 0
  | c :: r =>
      if (Ascii.eqb c "e" || Ascii.eqb c "E")%char then
        let (neg, ds) := take_sign r in
        match ds, digits_val 10 ds 0 with
        | _ :: _, Some e => Some (if neg then - e else e)
        | _, _ => None
        end
      else None
  end.

(** [m * 10 ^ e] as a rational. *)
Definition scale10 (m e : Z) : Q :=
  match e with
  | Zneg k => Qred (Qmake m (10 ^ k))
  | _ => inject_Z (m * 10 ^ e)
  end.

(** StrUnsignedDecimalLiteral other than [Infinity]. *)
Definition unsigned_decimal (l : list ascii) : option Q :=
  let (d1, r1) := span_digits l in
  let (d2, r2) := match r1 with
                  | "."%char :: r => span_digits r
                  | _ => ([], r1)
                  end in
  match (d1 ++ d2)%list, digits_val 10 (d1 ++ d2)%list 0, exponent_of r2 with
  | _ :: _, Some m, Some e => Some (scale10 m (e - Z.of_nat (List.length d2)))
  | _, _, _ => None
  end.

(** NonDecimalIntegerLiteral: [0x], [0o], [0b] and at least one digit. *)
Definition non_decimal (l : list ascii) : option Z :=
  match l with
  | "0"%char :: p :: (_ :: _) as ds =>
      let base := if (Ascii.eqb p "x" || Ascii.eqb p "X")%char then Some 16
                  else if (Ascii.eqb p "o" || Ascii.eqb p "O")%char then Some 8
                  else if (Ascii.eqb p "b" || Ascii.eqb p "B")%char then Some 2
                  else None in
      match base with
      | Some b => digits_val b ds 0
      | None => None
      end
  | _ => None
  end.

Definition StringToNumber (s : string) : JsNum :=
  let l := trim (list_ascii_of_string s) in
  match l with
  | [] => Fin 0
  | _ =>
      match non_decimal l with
      | Some z => of_Z z
      | None =>
          let (neg, u) := take_sign l in
          if String.eqb (string_of_list_ascii u) "Infinity" then
            if neg then NegInf else PosInf
          else
            match unsigned_decimal u with
            | Some q => Fin (if neg then Qred (- q) else q)
            | None => NaN
            end
      end
  end.

(** *** Number::toString

    Integers print as their decimal digits, a fraction as its decimal
    expansion, cut after twenty digits, and the exponent notation of very large
    and very small doubles is not reproduced. *)

Definition Z_to_string (z : Z) : string :=
  NilZero.string_of_int (Z.to_int z).

Fixpoint frac_digits (fuel : nat) (r d : Z) : string :=
  match fuel with
  | O => EmptyString
  | S k =>
      if r =? 0 then EmptyString
      else String (ascii_of_nat (Z.to_nat (48 + (10 * r) / d)))
                  (frac_digits k ((10 * r) mod d) d)
  end.

Definition NumberToString (a : JsNum) : string :=
  match a with
  | NaN => "NaN"
  | PosInf => "Infinity"
  | NegInf => "-Infinity"
  | Fin q =>
      let n := Qnum (Qred q) in
      let d := Zpos (Qden (Qred q)) in
      if d =? 1 then Z_to_string n
      else (if n <? 0 then "-" else EmptyString)
             ++ Z_to_string (Z.abs n / d) ++ "."
             ++ frac_digits 20 (Z.abs n mod d) d
  end.

(** *** Values of a request body: the JSON scalars, and a missing field *)

Inductive JsValue : Type :=
| VUndefined
| VNull
| VBool (b : bool)
| VNum (n : JsNum)
| VStr (s : string).

(** [Number(v)]. *)
Definition ToNumber (v : JsValue) : JsNum :=
  match v with
  | VUndefined => NaN
  | VNull => Fin 0
  | VBool b => Fin (if b then 1 else 0)
  | VNum n => n
  | VStr s => StringToNumber s
  end.

Definition ToString (v : JsValue) : string :=
  match v with
  | VUndefined => "undefined"
  | VNull => "null"
  | VBool b => if b then "true" else "false"
  | VNum n => NumberToString n
  | VStr s => s
  end.

Definition is_string (v : JsValue) : bool :=
  match v with VStr _ => true | _ => false end.

(** [a + b]: concatenation as soon as one operand is a string. *)
Definition js_add (a b : JsValue) : JsValue :=
  if is_string a || is_string b then VStr (ToString a ++ ToString b)
  else VNum (num_add (ToNumber a) (ToNumber b)).

(** [a / b]: always a number. *)
Definition js_div (a b : JsValue) : JsNum :=
  num_div (ToNumber a) (ToNumber b).

End JS.

(** ** Values of a decoded query string ([ParsedQs] of the package qs) *)

Module Qs.

Inductive QVal : Type :=
| QStr (s : string)
| QArr (items : list QVal)
| QObj (fields : list (string * QVal)).

(** A decoded query string, [req.query]: keys in enumeration order.  A key
    that is present has a string, an array or an object as its value. *)
Definition QueryString : Type := list (string * QVal).

Definition join (sep : string) (l : list string) : string :=
  match l with
  | [] => EmptyString
  | x :: r => fold_left (fun acc y => acc ++ sep ++ y) r x
  end.

(** [v.toString()]. *)
Fixpoint toString (v : QVal) : string :=
  match v with
  | QStr s => s
  | QArr items => join "," (map toString items)
  | QObj _ => "[object Object]"
  end.

(** [obj[key]] on an object whose keys are distinct. *)
Fixpoint get (key : string) (obj : QueryString) : option QVal :=
  match obj with
  | [] => None
  | (k, v) :: r => if String.eqb k key then Some v else get key r
  end.

(** ToBoolean of [obj[key]]: a missing key and the empty string are falsy. *)
Definition truthy (v : option QVal) : bool :=
  match v with
  | None => false
  | Some (QStr s) => negb (String.eqb s EmptyString)
  | Some _ => true
  end.

(** [Number(obj[key])]: a missing key is [undefined], an array or an object
    goes through its [toString]. *)
Definition toNumber (v : option QVal) : JS.JsNum :=
  match v with
  | None => JS.NaN
  | Some w => JS.StringToNumber (toString w)
  end.

End Qs.

(** ** Results of a request handler *)

(** A handler either completes, or hands [new ErrorHandler(message,
    statusCode)] (or an error thrown by the store) to the error middleware. *)
Inductive Outcome (A : Type) : Type :=
| Done (a : A)
| Failed (statusCode : nat) (message : string).

Arguments Done {A} a.
Arguments Failed {A} statusCode message.

(** ** The product controller: reviews *)

Module ProductController.

Import JS.

(** A 12-byte identifier of the store. *)
Record ObjectId : Type := { oid_value : N }.

Definition hex_char (d : N) : ascii :=
  match String.get (N.to_nat d) "0123456789abcdef" with
  | Some c => c
  | None => "0"%char
  end.

Fixpoint hex_digits (n : nat) (v : N) (acc : string) : string :=
  match n with
  | O => acc
  | S k => hex_digits k (v / 16)%N (String (hex_char (v mod 16)%N) acc)
  end.

(** [id.toString()]: 24 hexadecimal digits. *)
Definition oid_toString (o : ObjectId) : string :=
  hex_digits 24 (oid_value o) EmptyString.

Arguments oid_toString : simpl never.

(** An entry of [product.reviews] ([IReview], with the [_id] of the
    subdocument).  [rating] is what the handler has stored there. *)
Record Review : Type := {
  _id : ObjectId;
  user : ObjectId;
  name : string;
  rating : JsValue;
  comment : string
}.

(** The fields of a product document that the review handlers and the product
    listing read or write ([src/models/productModel.ts] is absent: the fields
    are those that the controller and the model tests use). *)
Record Product : Type := {
  product_id : ObjectId;
  product_name : string;
  description : string;
  price : JsNum;
  category : string;
  Stock : JsNum;
  ratings : JsNum;
  numOfReviews : nat;
  reviews : list Review
}.

Definition set_reviews (p : Product) (rs : list Review) : Product :=
  {| product_id := product_id p; product_name := product_name p;
     description := description p; price := price p; category := category p;
     Stock := Stock p; ratings := ratings p; numOfReviews := numOfReviews p;
     reviews := rs |}.

Definition set_numOfReviews (p : Product) (n : nat) : Product :=
  {| product_id := product_id p; product_name := product_name p;
     description := description p; price := price p; category := category p;
     Stock := Stock p; ratings := ratings p; numOfReviews := n;
     reviews := reviews p |}.

Definition set_ratings (p : Product) (r : JsNum) : Product :=
  {| product_id := product_id p; product_name := product_name p;
     description := description p; price := price p; category := category p;
     Stock := Stock p; ratings := r; numOfReviews := numOfReviews p;
     reviews := reviews p |}.

(** Modelled from the spec: [src/models/productModel.ts] is absent.  The data
    model of the spec and [docs/DATABASE_SCHEMA.md] give the paths [ratings]
    and [reviews[].rating] the type Number.  [castNumber] is the cast of the
    object-document mapper to that type: [null] and [undefined] pass, the
    empty string becomes [null], a string or a boolean goes through
    [Number], and NaN is refused.  [None] stands for the CastError. *)
Definition castNumber (v : JsValue) : option JsValue :=
  match v with
  | VUndefined => Some VUndefined
  | VNull => Some VNull
  | VStr s =>
      if String.eqb s EmptyString then Some VNull
      else match StringToNumber s with
           | NaN => None
           | n => Some (VNum n)
           end
  | VBool b => Some (VNum (ToNumber (VBool b)))
  | VNum NaN => None
  | VNum n => Some (VNum n)
  end.

(** [doc.path = v] on a path of type Number that holds [old]: the path takes
    the cast value; when the cast fails the error is kept for the validation
    and the path keeps [old]. *)
Definition assign (old v : JsValue) : JsValue :=
  match castNumber v with
  | Some w => w
  | None => old
  end.

(** [let avg = 0; reviews.forEach(rev => { avg += rev.rating; });] *)
Definition accumulate (rs : list Review) : JsValue :=
  fold_left (fun avg rev => js_add avg (rating rev)) rs (VNum (Fin 0)).

(** [rev.user.toString() === req.user._id.toString()] *)
Definition same_user (req_user : ObjectId) (rev : Review) : bool :=
  String.eqb (oid_toString (user rev)) (oid_toString req_user).

Arguments same_user : simpl never.

(** The request of [createProductReview]: the authenticated user, the body
    fields [rating] and [comment], and the identifier the store gives to a
    pushed subdocument. *)
Record ReviewRequest : Type := {
  req_user_id : ObjectId;
  req_user_name : string;
  body_rating : JsValue;
  body_comment : string;
  fresh_id : ObjectId
}.

(** [product.reviews.push(review)]: the object becomes a subdocument, its
    rating assigned to a path that holds nothing yet. *)
Definition push (rs : list Review) (review : Review) : list Review :=
  rs ++ [{| _id := _id review; user := user review; name := name review;
            rating := assign VUndefined (rating review);
            comment := comment review |}].

(** [product.ratings = n]. *)
Definition assign_ratings (p : Product) (n : JsNum) : Product :=
  match assign (VNum (ratings p)) (VNum n) with
  | VNum m => set_ratings p m
  | _ => p
  end.

(** [createProductReview], with [found] the result of
    [Product.findById(productId)] and the saved document as result
    ([product.save({ validateBeforeSave: false })]: the save runs no
    validation, and an assignment that could not be cast has left its path
    as it was). *)
Definition createProductReview (req : ReviewRequest) (found : option Product)
  : Outcome Product :=
  let review := {| _id := fresh_id req;
                   user := req_user_id req;
                   name := req_user_name req;
                   rating := VNum (ToNumber (body_rating req));
                   comment := body_comment req |} in
  match found with
  | None => Failed 404 "Product not found"
  | Some product =>
      let isReviewed := find (same_user (req_user_id req)) (reviews product) in
      let product :=
        match isReviewed with
        | Some _ =>
            set_reviews product
              (map (fun rev =>
                      if same_user (req_user_id req) rev
                      then {| _id := _id rev; user := user rev;
                              name := name rev;
                              rating := assign (rating rev) (body_rating req);
                              comment := body_comment req |}
                      else rev)
                   (reviews product))
        | None =>
            let product := set_reviews product (push (reviews product) review) in
            set_numOfReviews product (List.length (reviews product))
        end in
      let avg := accumulate (reviews product) in
      Done (assign_ratings product
              (js_div avg (VNum (of_nat (List.length (reviews product))))))
  end.

(** Modelled from the spec: [src/models/productModel.ts] is absent, and with
    it the validators that [runValidators: true] runs on the update.  The
    data model of the spec bounds the product rating by 0 and 5; the review
    count is a natural number by its type. *)
Definition ratings_valid (r : JsNum) : bool :=
  num_leb (Fin 0) r && num_leb r (Fin 5).

(** [Product.findByIdAndUpdate(productId, { reviews, ratings, numOfReviews },
    { new: true, runValidators: true, useFindAndModify: false })] on the
    document of that identifier. *)
Definition findByIdAndUpdate (product : Product) (reviews' : list Review)
    (ratings' : JsNum) (numOfReviews' : nat) : Outcome Product :=
  if ratings_valid ratings' then
    Done (set_numOfReviews (set_ratings (set_reviews product reviews') ratings')
            numOfReviews')
  else Failed 500 "Internal Server Error".

(** [deleteReview], with [q_productId] and [q_id] the entries
    [req.query.productId] and [req.query.id], and [found] the result of
    [Product.findById(productId)]. *)
Definition deleteReview (q_productId q_id : option Qs.QVal)
    (found : option Product) : Outcome Product :=
  let productId := option_map Qs.toString q_productId in
  let reviewId := option_map Qs.toString q_id in
  match productId, reviewId with
  | Some pid, Some rid =>
      if String.eqb pid EmptyString || String.eqb rid EmptyString then
        Failed 400 "Product ID and Review ID are required"
      else
        match found with
        | None => Failed 404 "Product not found"
        | Some product =>
            let reviews' :=
              filter (fun rev => negb (String.eqb (oid_toString (_id rev)) rid))
                     (reviews product) in
            let avg := accumulate reviews' in
            let ratings' :=
              if (List.length reviews' =? 0)%nat then Fin 0
              else js_div avg (VNum (of_nat (List.length reviews'))) in
            let numOfReviews' := List.length reviews' in
            findByIdAndUpdate product reviews' ratings' numOfReviews'
        end
  | _, _ => Failed 400 "Product ID and Review ID are required"
  end.

End ProductController.

(** ** JSON text: [JSON.stringify], the operator rewrite, [JSON.parse] *)

Module Json.

Import Qs.

Definition Text : Type := list ascii.

Definition dquote : ascii := "034"%char.
Definition backslash : ascii := "\"%char.

Definition hex_digit (n : nat) : ascii :=
  match String.get n "0123456789abcdef" with
  | Some c => c
  | None => "0"%char
  end.

(** QuoteJSONString on one code unit. *)
Definition escape_char (c : ascii) : Text :=
  let n := JS.code c in
  if (n =? 8)%nat then [backslash; "b"%char]
  else if (n =? 9)%nat then [backslash; "t"%char]
  else if (n =? 10)%nat then [backslash; "n"%char]
  else if (n =? 12)%nat then [backslash; "f"%char]
  else if (n =? 13)%nat then [backslash; "r"%char]
  else if (n =? 34)%nat then [backslash; dquote]
  else if (n =? 92)%nat then [backslash; backslash]
  else if (n <? 32)%nat then
    [backslash; "u"%char; "0"%char; "0"%char;
     hex_digit (n / 16); hex_digit (n mod 16)]
  else [c].

Definition escape (s : Text) : Text := flat_map escape_char s.

Definition quote (s : string) : Text :=
  (dquote :: escape (list_ascii_of_string s) ++ [dquote])%list.

(** The elements of a list, separated by commas. *)
Fixpoint commas (l : list Text) : Text :=
  match l with
  | [] => []
  | [x] => x
  | x :: r => (x ++ ","%char :: commas r)%list
  end.

(** [JSON.stringify(v)], without a replacer or an indentation. *)
Fixpoint stringify (v : QVal) : Text :=
  match v with
  | QStr s => quote s
  | QArr items => ("["%char :: commas (map stringify items) ++ ["]"%char])%list
  | QObj fields =>
      ("{"%char
         :: commas (map (fun kv => quote (fst kv) ++ ":"%char :: stringify (snd kv))
                        fields)
         ++ ["}"%char])%list
  end.

(** *** [queryStr.replace(/\b(gt|gte|lt|lte)\b/g, key => `$${key}`)] *)

(** The class [\w]. *)
Definition is_word (c : ascii) : bool :=
  let n := JS.code c in
  ((48 <=? n) && (n <=? 57) || (65 <=? n) && (n <=? 90)
   || (97 <=? n) && (n <=? 122) || (n =? 95))%nat.

(** [\b] before the text [l], itself after a word character ([true]) or not:
    the end of the text counts as a non-word character. *)
Definition boundary (after_word : bool) (l : Text) : bool :=
  match l with
  | [] => after_word
  | c :: _ => xorb after_word (is_word c)
  end.

(** [w] is a prefix of [l]: what follows it. *)
Fixpoint strip_prefix (w l : Text) : option Text :=
  match w, l with
  | [], _ => Some l
  | a :: w', c :: l' => if Ascii.eqb a c then strip_prefix w' l' else None
  | _ :: _, [] => None
  end.

Definition operators : list Text :=
  map list_ascii_of_string ["gt"; "gte"; "lt"; "lte"].

(** The alternation, tried from left to right, followed by [\b]: the word
    that matches at the head of [l], if one does. *)
Definition match_operator (l : Text) : option Text :=
  find (fun w => match strip_prefix w l with
                 | Some t => boundary true t
                 | None => false
                 end) operators.

(** The replacement.  A match starts where [\b] holds and one of the four
    words, followed by [\b], begins; the four words are made of word
    characters, so the leading [\b] asks for a non-word character (or the
    start of the text) before the match, and no other match starts inside a
    matched word.  The callback returns the matched word after a dollar sign,
    hence the result is the text with a dollar sign put where a match starts.
    [after_word] tells whether the previous code unit is a word character. *)
Fixpoint replace_operators (after_word : bool) (l : Text) : Text :=
  match l with
  | [] => []
  | c :: r =>
      let rest := c :: replace_operators (is_word c) r in
      if boundary after_word l then
        match match_operator l with
        | Some _ => "$"%char :: rest
        | None => rest
        end
      else rest
  end.

(** *** [JSON.parse]

    On the grammar that [stringify] writes: strings, arrays and objects
    without white space.  [None] stands for the SyntaxError. *)

(** The character after a backslash. *)
Definition unescape_char (c : ascii) : option ascii :=
  if Ascii.eqb c dquote then Some dquote
  else if Ascii.eqb c backslash then Some backslash
  else if Ascii.eqb c "/" then Some "/"%char
  else if Ascii.eqb c "b" then Some "008"%char
  else if Ascii.eqb c "f" then Some "012"%char
  else if Ascii.eqb c "n" then Some "010"%char
  else if Ascii.eqb c "r" then Some "013"%char
  else if Ascii.eqb c "t" then Some "009"%char
  else None.

(** The code unit of [\uXXXX], when it is below 256. *)
Definition unicode_escape (h1 h2 h3 h4 : ascii) : option ascii :=
  match JS.digits_val 16 [h1; h2; h3; h4] 0 with
  | Some z => if z <? 256 then Some (ascii_of_nat (Z.to_nat z)) else None
  | None => None
  end.

(** The characters of a string literal, after its opening quote. *)
Fixpoint parse_string (l : Text) : option (Text * Text) :=
  match l with
  | [] => None
  | c :: r =>
      if Ascii.eqb c dquote then Some ([], r)
      else if Ascii.eqb c backslash then
        match r with
        | [] => None
        | e :: r1 =>
            if Ascii.eqb e "u" then
              match r1 with
              | h1 :: h2 :: h3 :: h4 :: r2 =>
                  match unicode_escape h1 h2 h3 h4, parse_string r2 with
                  | Some u, Some (s, t) => Some (u :: s, t)
                  | _, _ => None
                  end
              | _ => None
              end
            else
              match unescape_char e, parse_string r1 with
              | Some u, Some (s, t) => Some (u :: s, t)
              | _, _ => None
              end
        end
      else if (JS.code c <? 32)%nat then None
      else
        match parse_string r with
        | Some (s, t) => Some (c :: s, t)
        | None => None
        end
  end.

(** [obj[k] = v] while an object is built: a repeated key keeps its place
    and takes the later value. *)
Fixpoint obj_set (k : string) (v : QVal) (obj : list (string * QVal))
  : list (string * QVal) :=
  match obj with
  | [] => [(k, v)]
  | (k', v') :: r =>
      if String.eqb k' k then (k', v) :: r else (k', v') :: obj_set k v r
  end.

Definition build_object (members : list (string * QVal)) : list (string * QVal) :=
  fold_left (fun obj kv => obj_set (fst kv) (snd kv) obj) members [].

Fixpoint parse_value (fuel : nat) (l : Text) {struct fuel}
  : option (QVal * Text) :=
  match fuel with
  | O => None
  | S f =>
      match l with
      | [] => None
      | c :: r =>
          if Ascii.eqb c dquote then
            match parse_string r with
            | Some (s, t) => Some (QStr (string_of_list_ascii s), t)
            | None => None
            end
          else if Ascii.eqb c "[" then
            match r with
            | c1 :: r1 =>
                if Ascii.eqb c1 "]" then Some (QArr [], r1)
                else match parse_items f r with
                     | Some (vs, t) => Some (QArr vs, t)
                     | None => None
                     end
            | [] => None
            end
          else if Ascii.eqb c "{" then
            match r with
            | c1 :: r1 =>
                if Ascii.eqb c1 "}" then Some (QObj [], r1)
                else match parse_members f r with
                     | Some (ms, t) => Some (QObj (build_object ms), t)
                     | None => None
                     end
            | [] => None
            end
          else None
      end
  end

with parse_items (fuel : nat) (l : Text) {struct fuel}
  : option (list QVal * Text) :=
  match fuel with
  | O => None
  | S f =>
      match parse_value f l with
      | Some (v, c :: t) =>
          if Ascii.eqb c "," then
            match parse_items f t with
            | Some (vs, t') => Some (v :: vs, t')
            | None => None
            end
          else if Ascii.eqb c "]" then Some ([v], t)
          else None
      | _ => None
      end
  end

with parse_members (fuel : nat) (l : Text) {struct fuel}
  : option (list (string * QVal) * Text) :=
  match fuel with
  | O => None
  | S f =>
      match l with
      | q :: r =>
          if Ascii.eqb q dquote then
            match parse_string r with
            | Some (k, c :: t) =>
                if Ascii.eqb c ":" then
                  match parse_value f t with
                  | Some (v, c' :: t') =>
                      if Ascii.eqb c' "," then
                        match parse_members f t' with
                        | Some (ms, t'') =>
                            Some ((string_of_list_ascii k, v) :: ms, t'')
                        | None => None
                        end
                      else if Ascii.eqb c' "}" then
                        Some ([(string_of_list_ascii k, v)], t')
                      else None
                  | _ => None
                  end
                else None
            | _ => None
            end
          else None
      | [] => None
      end
  end.

(** [JSON.parse(text)]. *)
Definition parse (text : Text) : option QVal :=
  match parse_value (List.length text) text with
  | Some (v, []) => Some v
  | _ => None
  end.

End Json.

(** ** The document store, as far as the product listing uses it

    The store (MongoDB behind Mongoose) is not part of the repository.  The
    model covers the conditions that [ApiFeatures] can build on the scalar
    paths of a product: equality, the four comparison operators on a number,
    and [$regex] with [$options] on a string; and the way [query.find] merges
    a condition into the filter of the query.  [None] stands for a query the
    store rejects (a value that cannot be cast, an unknown operator) or that
    the model does not cover. *)

Module Store.

Import JS Qs ProductController.

Inductive FieldVal : Type :=
| FNum (n : JsNum)
| FStr (s : string).

(** Modelled from the spec: [src/models/productModel.ts] is absent; the paths
    and their types follow the data model of the spec (a name, a description
    and a category that are strings, a price, a stock, a rating and a review
    count that are numbers). *)
Definition field (p : Product) (path : string) : option FieldVal :=
  if String.eqb path "name" then Some (FStr (product_name p))
  else if String.eqb path "description" then Some (FStr (description p))
  else if String.eqb path "category" then Some (FStr (category p))
  else if String.eqb path "price" then Some (FNum (price p))
  else if String.eqb path "Stock" then Some (FNum (Stock p))
  else if String.eqb path "ratings" then Some (FNum (ratings p))
  else if String.eqb path "numOfReviews" then Some (FNum (of_nat (numOfReviews p)))
  else None.

(** A query value cast to the number type of its path. *)
Definition cast_number (s : string) : option JsNum :=
  if String.eqb s EmptyString then None
  else match StringToNumber s with
       | NaN => None
       | n => Some n
       end.

Definition comparison (op : string) : option (JsNum -> JsNum -> bool) :=
  if String.eqb op "$gt" then Some (fun a b => num_ltb b a)
  else if String.eqb op "$gte" then Some (fun a b => num_leb b a)
  else if String.eqb op "$lt" then Some num_ltb
  else if String.eqb op "$lte" then Some num_leb
  else None.

(** Every operator of [ops] holds of the number [n]. *)
Fixpoint eval_num_ops (n : JsNum) (ops : list (string * QVal)) : option bool :=
  match ops with
  | [] => Some true
  | (op, QStr s) :: r =>
      match comparison op, cast_number s, eval_num_ops n r with
      | Some cmp, Some x, Some b => Some (cmp n x && b)
      | _, _, _ => None
      end
  | _ :: _ => None
  end.

(** *** Regular expressions: literal characters and the dot *)

Inductive Atom : Type :=
| Lit (c : ascii)
| AnyChar.

Definition is_meta (c : ascii) : bool :=
  existsb (Ascii.eqb c) (list_ascii_of_string "\^$.|?*+()[]{}").

Fixpoint compile (pattern : list ascii) : option (list Atom) :=
  match pattern with
  | [] => Some []
  | c :: r =>
      match compile r with
      | Some atoms =>
          if Ascii.eqb c "." then Some (AnyChar :: atoms)
          else if is_meta c then None
          else Some (Lit c :: atoms)
      | None => None
      end
  end.

(** Case folding of the letters A to Z. *)
Definition lower (c : ascii) : ascii :=
  if ((65 <=? code c) && (code c <=? 90))%nat
  then ascii_of_nat (code c + 32) else c.

Definition atom_matches (caseless : bool) (a : Atom) (c : ascii) : bool :=
  match a with
  | Lit x => if caseless then Ascii.eqb (lower x) (lower c) else Ascii.eqb x c
  | AnyChar => negb (code c =? 10)%nat
  end.

Fixpoint match_here (caseless : bool) (atoms : list Atom) (s : list ascii)
  : bool :=
  match atoms, s with
  | [], _ => true
  | a :: atoms', c :: s' =>
      atom_matches caseless a c && match_here caseless atoms' s'
  | _ :: _, [] => false
  end.

(** An unanchored match: somewhere in [s]. *)
Fixpoint regex_search (caseless : bool) (atoms : list Atom) (s : list ascii)
  : bool :=
  match_here caseless atoms s
  || match s with
     | [] => false
     | _ :: s' => regex_search caseless atoms s'
     end.

Definition regex_test (pattern options subject : string) : option bool :=
  let caseless := if String.eqb options "i" then Some true
                  else if String.eqb options EmptyString then Some false
                  else None in
  match caseless, compile (list_ascii_of_string pattern) with
  | Some ci, Some atoms =>
      Some (regex_search ci atoms (list_ascii_of_string subject))
  | _, _ => None
  end.

(** The operators of [ops] on the string [t]: [$regex], with or without
    [$options]. *)
Definition eval_str_ops (t : string) (ops : list (string * QVal)) : option bool :=
  match ops with
  | [(op, QStr pattern)] =>
      if String.eqb op "$regex" then regex_test pattern EmptyString t else None
  | [(op, QStr pattern); (op', QStr options)] =>
      if String.eqb op "$regex" && String.eqb op' "$options"
      then regex_test pattern options t else None
  | _ => None
  end.

(** One entry [path: c] of a condition, on a document. *)
Definition eval_entry (p : Product) (path : string) (c : QVal) : option bool :=
  match field p path, c with
  | Some (FNum n), QStr s =>
      match cast_number s with
      | Some x => Some (num_eqb n x)
      | None => None
      end
  | Some (FNum n), QObj ops => eval_num_ops n ops
  | Some (FStr t), QStr s => Some (String.eqb t s)
  | Some (FStr t), QObj ops => eval_str_ops t ops
  | _, _ => None
  end.

Fixpoint eval_entries (p : Product) (entries : list (string * QVal))
  : option bool :=
  match entries with
  | [] => Some true
  | (path, c) :: r =>
      match eval_entry p path c, eval_entries p r with
      | Some b, Some b' => Some (b && b')
      | _, _ => None
      end
  end.

(** A document against a condition: the empty condition holds of each. *)
Definition matches (cond : QVal) (p : Product) : option bool :=
  match cond with
  | QObj entries => eval_entries p entries
  | _ => None
  end.

(** A query in progress: its filter, the object that the calls of [find]
    have built so far, and the window set by [limit] and [skip]. *)
Record Query : Type := {
  conditions : QVal;
  limit_option : option JsNum;
  skip_option : option JsNum
}.

(** [Product.find()]. *)
Definition find_all : Query :=
  {| conditions := QObj []; limit_option := None; skip_option := None |}.

(** The keys that a merge never copies. *)
Definition specialProperties : list string :=
  ["__proto__"; "constructor"; "prototype"].

(** The merge of the object [from] into the object [to], as [query.find]
    does it: a key that [to] does not have is added with its value; for a key
    that [to] has, an object is merged into the value that [to] has there
    (into an empty object, when that value is not an object), and any other
    value replaces it. *)
Fixpoint merge (to : list (string * QVal)) (from : QVal) {struct from}
  : list (string * QVal) :=
  match from with
  | QObj fields =>
      (fix each (to : list (string * QVal)) (l : list (string * QVal))
           {struct l} : list (string * QVal) :=
         match l with
         | [] => to
         | (key, v) :: r =>
             each
               (if existsb (String.eqb key) specialProperties then to
                else
                  match get key to, v with
                  | Some old, QObj _ =>
                      Json.obj_set key
                        (QObj (merge match old with
                                     | QObj inner => inner
                                     | _ => []
                                     end v))
                        to
                  | _, _ => Json.obj_set key v to
                  end)
               r
         end) to fields
  | _ => to
  end.

(** [query.find(cond)]: the condition is merged into the filter.  A
    condition that is not an object puts the query in error; the filter then
    holds that value, which no record can be matched against. *)
Definition find (cond : QVal) (q : Query) : Query :=
  {| conditions := match conditions q, cond with
                   | QObj to, QObj _ => QObj (merge to cond)
                   | QObj _, _ => cond
                   | invalid, _ => invalid
                   end;
     limit_option := limit_option q; skip_option := skip_option q |}.

(** [query.limit(n)]. *)
Definition limit (n : JsNum) (q : Query) : Query :=
  {| conditions := conditions q;
     limit_option := Some n; skip_option := skip_option q |}.

(** [query.skip(n)]. *)
Definition skip (n : JsNum) (q : Query) : Query :=
  {| conditions := conditions q;
     limit_option := limit_option q; skip_option := Some n |}.

(** The records of the collection that meet the filter, in order. *)
Fixpoint matching (cond : QVal) (collection : list Product)
  : option (list Product) :=
  match collection with
  | [] => Some []
  | p :: r =>
      match matches cond p, matching cond r with
      | Some b, Some l => Some (if b then p :: l else l)
      | _, _ => None
      end
  end.

(** A number of records: a natural number. *)
Definition to_count (n : JsNum) : option nat :=
  match n with
  | Fin q =>
      if (Zpos (Qden (Qred q)) =? 1) && (0 <=? Qnum (Qred q))
      then Some (Z.to_nat (Qnum (Qred q))) else None
  | _ => None
  end.

(** The window: the records after the first [skip], at most [limit] of them
    (a limit of zero is no limit). *)
Definition window (q : Query) (l : list Product) : option (list Product) :=
  let skipped :=
    match skip_option q with
    | None => Some l
    | Some s => option_map (fun k => skipn k l) (to_count s)
    end in
  match skipped, limit_option q with
  | Some l', None => Some l'
  | Some l', Some n =>
      option_map (fun k => if (k =? 0)%nat then l' else firstn k l') (to_count n)
  | None, _ => None
  end.

(** [await query]. *)
Definition exec (q : Query) (collection : list Product)
  : option (list Product) :=
  match matching (conditions q) collection with
  | Some l => window q l
  | None => None
  end.

End Store.

(** ** [ApiFeatures] *)

Module ApiFeatures.

Import JS Qs Json Store.

Record ApiFeatures : Type := {
  query : Query;
  queryStr : QueryString
}.

(** [search()]. *)
Definition search (this : ApiFeatures) : ApiFeatures :=
  let keyword :=
    match get "keyword" (queryStr this) with
    | Some kw =>
        if truthy (Some kw)
        then [("name", QObj [("$regex", kw); ("$options", QStr "i")])]
        else []
    | None => []
    end in
  {| query := find (QObj keyword) (query this); queryStr := queryStr this |}.

Definition removeFields : list string := ["keyword"; "page"; "limit"].

(** [delete obj[key]]. *)
Definition delete (key : string) (obj : QueryString) : QueryString :=
  List.filter (fun kv => negb (String.eqb (fst kv) key)) obj.

(** [const queryCopy = { ...this.queryStr };
     removeFields.forEach(key => delete queryCopy[key]);] *)
Definition queryCopy (this : ApiFeatures) : QueryString :=
  fold_left (fun copy key => delete key copy) removeFields (queryStr this).

(** The argument of [JSON.parse] in [filter()]. *)
Definition filter_text (this : ApiFeatures) : Text :=
  replace_operators false (stringify (QObj (queryCopy this))).

(** [filter()]; [None] when [JSON.parse] throws. *)
Definition filter (this : ApiFeatures) : option ApiFeatures :=
  match parse (filter_text this) with
  | Some cond =>
      Some {| query := find cond (query this); queryStr := queryStr this |}
  | None => None
  end.

(** [Number(this.queryStr.page) || 1]. *)
Definition currentPage (this : ApiFeatures) : JsNum :=
  let n := toNumber (get "page" (queryStr this)) in
  if num_truthy n then n else Fin 1.

(** [resultPerPage * (currentPage - 1)]. *)
Definition skip_of (resultPerPage : JsNum) (this : ApiFeatures) : JsNum :=
  num_mul resultPerPage (num_sub (currentPage this) (Fin 1)).

(** [pagination(resultPerPage)]. *)
Definition pagination (resultPerPage : JsNum) (this : ApiFeatures)
  : ApiFeatures :=
  {| query := skip (skip_of resultPerPage this)
                   (limit resultPerPage (query this));
     queryStr := queryStr this |}.

End ApiFeatures.

(** ** Notions of the statements *)

Module Notions.

Import JS Qs ProductController.

(** The sum of a list of rationals. *)
Definition Qsum (qs : list Q) : Q := fold_right Qplus 0%Q qs.

(** Ratings that are finite numbers. *)
Definition numbers (qs : list Q) : list JsValue :=
  map (fun q => VNum (Fin q)) qs.

(** The arithmetic mean: sum over count. *)
Definition mean (qs : list Q) : Q :=
  (Qsum qs / inject_Z (Z.of_nat (List.length qs)))%Q.


(** The author of a review, as the handlers compare authors. *)
Definition author (rev : Review) : string := oid_toString (user rev).

(** At most one review per user. *)
Definition one_review_per_user (rs : list Review) : Prop :=
  NoDup (map author rs).

(** The rating of a request is the finite number [q]: the number itself, or
    a string, other than the empty one, that reads as it. *)
Definition rating_is (v : JsValue) (q : Q) : Prop :=
  v = VNum (Fin q)
  \/ exists s, v = VStr s /\ s <> EmptyString /\ StringToNumber s = Fin q.

(** The entry [rev] once the rating and the comment of a request have been
    assigned to it. *)
Definition revised (req : ReviewRequest) (rev : Review) : Review :=
  {| _id := _id rev; user := user rev; name := name rev;
     rating := assign (rating rev) (body_rating req);
     comment := body_comment req |}.

(** The review that a request appends. *)
Definition appended (req : ReviewRequest) : Review :=
  {| _id := fresh_id req; user := req_user_id req; name := req_user_name req;
     rating := assign VUndefined (VNum (ToNumber (body_rating req)));
     comment := body_comment req |}.

(** The rating that the handlers compute from a review list. *)
Definition computed_rating (rs : list Review) : JsNum :=
  match rs with
  | [] => Fin 0
  | _ :: _ => js_div (accumulate rs) (VNum (of_nat (List.length rs)))
  end.

(** The stored count and rating are those computed from the review list. *)
Definition aggregates_agree (p : Product) : Prop :=
  numOfReviews p = List.length (reviews p)
  /\ ratings p = computed_rating (reviews p).

(** No entry of the list has the identifier [reviewId]. *)
Definition unknown_review (reviewId : string) (rs : list Review) : Prop :=
  forall rev, In rev rs -> oid_toString (_id rev) <> reviewId.

(** The query entries of a [deleteReview] request for identifiers. *)
Definition id_param (o : ObjectId) : option QVal :=
  Some (QStr (oid_toString o)).


(** The last character that [JSON.stringify] writes for [c] is a word
    character: [c] is one, or [c] is a control character (written as a
    backslash and a letter, or as [\u] and four hexadecimal digits). *)
Definition written_as_word (c : ascii) : bool :=
  Json.is_word c || (JS.code c <? 32)%nat.

(** The string [l] with a dollar sign before each of its bare words gt, gte,
    lt, lte, as the rewrite of its JSON text leaves it.  [after_word] tells
    whether what precedes [l] in the text ends with a word character. *)
Fixpoint dollar_operators (after_word : bool) (l : Json.Text) : Json.Text :=
  match l with
  | [] => []
  | c :: r =>
      let rest := c :: dollar_operators (written_as_word c) r in
      if Json.boundary after_word l then
        match Json.match_operator l with
        | Some _ => "$"%char :: rest
        | None => rest
        end
      else rest
  end.

Definition with_dollars (s : string) : string :=
  string_of_list_ascii (dollar_operators false (list_ascii_of_string s)).

(** A value with every key and every string rewritten. *)
Fixpoint rewritten (v : QVal) : QVal :=
  match v with
  | QStr s => QStr (with_dollars s)
  | QArr items => QArr (map rewritten items)
  | QObj fields =>
      QObj (map (fun kv => (with_dollars (fst kv), rewritten (snd kv))) fields)
  end.

(** A value as [JSON.parse] rebuilds it: in each object a repeated key keeps
    its first place and its last value. *)
Fixpoint rebuilt (v : QVal) : QVal :=
  match v with
  | QStr s => QStr s
  | QArr items => QArr (map rebuilt items)
  | QObj fields =>
      QObj (Json.build_object (map (fun kv => (fst kv, rebuilt (snd kv))) fields))
  end.

(** Steps of the parser that suffice to read a value back. *)
Fixpoint need (v : QVal) : nat :=
  match v with
  | QStr _ => 1
  | QArr items => S (fold_right (fun w n => S (need w + n)) 0 items)
  | QObj fields => S (fold_right (fun kv n => S (need (snd kv) + n)) 0 fields)
  end%nat.

(** The text [rest] cannot continue a word. *)
Definition stops_word (rest : Json.Text) : Prop :=
  match rest with
  | [] => True
  | c :: _ => Json.is_word c = false
  end.

(** Whether a text read after [after_word] ends with a word character. *)
Definition ends_word (after_word : bool) (x : Json.Text) : bool :=
  fold_left (fun _ c => Json.is_word c) x after_word.

(** The keys of an object. *)
Definition keys (obj : list (string * QVal)) : list string := map fst obj.



End Notions.

(** ** Sample data *)

Module Samples.

Import JS Qs ProductController.

Definition oid (n : N) : ObjectId := {| oid_value := n |}.

Definition alice : ObjectId := oid 2577.
Definition bob : ObjectId := oid 2827.
Definition carol : ObjectId := oid 3246.

(** A product without reviews. *)
Definition widget : Product :=
  {| product_id := oid 1; product_name := "Blue Widget";
     description := "A widget"; price := Fin 100; category := "Tools";
     Stock := Fin 7; ratings := Fin 0; numOfReviews := 0; reviews := [] |}.

Definition review_by (id who : ObjectId) (who_name : string) (r : JsValue)
    (text : string) : Review :=
  {| _id := id; user := who; name := who_name; rating := r; comment := text |}.

Definition request (who : ObjectId) (who_name : string) (r : JsValue)
    (text : string) (id : ObjectId) : ReviewRequest :=
  {| req_user_id := who; req_user_name := who_name; body_rating := r;
     body_comment := text; fresh_id := id |}.

Definition with_reviews (p : Product) (rs : list Review) (r : JsNum) : Product :=
  set_ratings (set_numOfReviews (set_reviews p rs) (List.length rs)) r.

(** The widget reviewed by Alice (5) and Bob (3): rating 4. *)
Definition widget_5_3 : Product :=
  with_reviews widget
    [review_by (oid 101) alice "Alice" (VNum (Fin 5)) "great";
     review_by (oid 102) bob "Bob" (VNum (Fin 3)) "fair"]
    (Fin 4).

(** The widget reviewed by Alice alone (4). *)
Definition widget_4 : Product :=
  with_reviews widget
    [review_by (oid 101) alice "Alice" (VNum (Fin 4)) "good"] (Fin 4).

(** The widget without reviews, created with a rating of 5. *)
Definition widget_stale : Product := set_ratings widget (Fin 5).

(** A second product of the collection. *)
Definition gadget : Product :=
  {| product_id := oid 2; product_name := "red gadget";
     description := "A gadget"; price := Fin 250; category := "Tools";
     Stock := Fin 3; ratings := Fin 0; numOfReviews := 0; reviews := [] |}.

(** The widget at another price. *)
Definition priced (p : JsNum) : Product :=
  {| product_id := oid 1; product_name := "Blue Widget";
     description := "A widget"; price := p; category := "Tools";
     Stock := Fin 7; ratings := Fin 0; numOfReviews := 0; reviews := [] |}.

(** The condition that the price range of P4 gives. *)
Definition price_range : QVal :=
  QObj [("price", QObj [("$gte", QStr "100"); ("$lte", QStr "500")])].

(** [new ApiFeatures(Product.find(), queryStr)]. *)
Definition listing (queryStr : QueryString) : ApiFeatures.ApiFeatures :=
  {| ApiFeatures.query := Store.find_all; ApiFeatures.queryStr := queryStr |}.

End Samples.

(** ** The product listing *)

Module ProductListing.

Import JS Qs ProductController Store ApiFeatures.

(** The body of the response of [getAllProducts] ([success] is [true]). *)
Record Response : Type := {
  products : list Product;
  productsCount : nat;
  resultPerPage : JsNum;
  filteredProductsCount : nat
}.

(** [Number(req.query.limit) || 8]. *)
Definition pageSize (req_query : QueryString) : JsNum :=
  let n := toNumber (get "limit" req_query) in
  if num_truthy n then n else Fin 8.

(** [getAllProducts] on the collection of the products.  [None] when
    [filter()] throws or the store rejects one of the two queries. *)
Definition getAllProducts (req_query : QueryString) (collection : list Product)
  : option Response :=
  let resultPerPage := pageSize req_query in
  let productsCount := List.length collection in
  match filter (search {| query := find_all; queryStr := req_query |}) with
  | None => None
  | Some apiFeature =>
      match exec (query apiFeature) collection with
      | None => None
      | Some all =>
          let filteredProductsCount := List.length all in
          let apiFeature := pagination resultPerPage apiFeature in
          match exec (query apiFeature) collection with
          | None => None
          | Some page =>
              Some {| products := page;
                      productsCount := productsCount;
                      resultPerPage := resultPerPage;
                      filteredProductsCount := filteredProductsCount |}
          end
      end
  end.

End ProductListing.

(** ** The error middleware *)

Module ErrorMiddleware.

Import JS Qs.

(** What the middleware reads of an error: whether it is an [ErrorHandler],
    its [name], [message], [statusCode], [code], the keys of its [keyValue],
    its [path] and its [stack]. *)
Record Err : Type := {
  isErrorHandler : bool;
  err_name : string;
  err_message : string;
  err_statusCode : nat;
  err_code : option JsValue;
  err_keyValue : option (list string);
  err_path : option string;
  err_stack : option string
}.

(** The response: the status, and the fields [message] and [stack] of the
    body ([success] is [false]). *)
Record ErrorResponse : Type := {
  status : nat;
  message : string;
  stack : option string
}.

(** ["code" in err && err.code === 11000]. *)
Definition duplicate_key (err : Err) : bool :=
  match err_code err with
  | Some (VNum n) => num_eqb n (Fin 11000)
  | _ => false
  end.

(** The values of [statusCode] and [message] when the response is sent:
    the defaults, then each test of the middleware in turn. *)
Definition status_and_message (err : Err) : nat * string :=
  let statusCode := 500%nat in
  let message := "Internal Server Error" in
  if isErrorHandler err then (err_statusCode err, err_message err)
  else
    let (statusCode, message) :=
      if String.eqb (err_name err) "CastError"
      then (400%nat,
            "Resource not found. Invalid: "
            ++ match err_path err with
               | Some path => path
               | None => "undefined"
               end)
      else (statusCode, message) in
    let (statusCode, message) :=
      if duplicate_key err
      then (400%nat,
            "Duplicate "
            ++ Qs.join ", " match err_keyValue err with
                            | Some ks => ks
                            | None => []
                            end
            ++ " entered")
      else (statusCode, message) in
    let (statusCode, message) :=
      if String.eqb (err_name err) "JsonWebTokenError"
      then (401%nat, "JSON Web Token is invalid. Try again")
      else (statusCode, message) in
    if String.eqb (err_name err) "TokenExpiredError"
    then (401%nat, "JSON Web Token is expired. Try again")
    else (statusCode, message).

(** [errorMiddleware(err, req, res)], with [node_env] the value of
    [process.env.NODE_ENV]. *)
Definition errorMiddleware (node_env : option string) (err : Err)
  : ErrorResponse :=
  {| status := fst (status_and_message err);
     message := snd (status_and_message err);
     stack := match node_env with
              | Some env => if String.eqb env "development" then err_stack err
                            else None
              | None => None
              end |}.

End ErrorMiddleware.

(** ** Well-formed data *)

Module Wellformed.

Import JS Qs ProductController Notions.

(** The identifier of a review, as [deleteReview] compares identifiers. *)
Definition review_key (rev : Review) : string := oid_toString (_id rev).

(** The reviews of a list have distinct identifiers. *)
Definition distinct_ids (rs : list Review) : Prop :=
  NoDup (map review_key rs).

(** Every number of the list lies between [lo] and [hi]. *)
Definition within (lo hi : Q) (qs : list Q) : Prop :=
  Forall (fun q => (lo <= q /\ q <= hi)%Q) qs.

(** Every review of the list holds a number between [lo] and [hi] as its
    rating. *)
Definition rated_within (lo hi : Q) (rs : list Review) : Prop :=
  Forall (fun rev => exists q, rating rev = VNum (Fin q)
                               /\ (lo <= q /\ q <= hi)%Q) rs.

(** An identifier of the query string is missing: absent, or empty once
    converted to a string. *)
Definition missing (v : option QVal) : Prop :=
  match v with
  | None => True
  | Some w => Qs.toString w = EmptyString
  end.

(** One of the words gt, gte, lt, lte stands in [l] as a bare word: it
    begins somewhere in [l], ends where a word ends, and does not follow a
    word character.  [after_word] tells whether what precedes [l] ends with
    a word character; a control character counts as one, as in
    [written_as_word]. *)
Fixpoint bare_operator (after_word : bool) (l : Json.Text) : bool :=
  match l with
  | [] => false
  | c :: r =>
      negb after_word
      && match Json.match_operator l with
         | Some _ => true
         | None => false
         end
      || bare_operator (written_as_word c) r
  end.

(** The string [s] holds none of the words gt, gte, lt, lte as a bare word
    (so "salt" and "result" qualify, "gt" and "a-lt" do not). *)
Definition operator_free (s : string) : Prop :=
  bare_operator false (list_ascii_of_string s) = false.

(** Two errors that the middleware cannot tell apart but for their message,
    status code and stack. *)
Definition same_kind (a b : ErrorMiddleware.Err) : Prop :=
  ErrorMiddleware.isErrorHandler a = ErrorMiddleware.isErrorHandler b
  /\ ErrorMiddleware.err_name a = ErrorMiddleware.err_name b
  /\ ErrorMiddleware.err_code a = ErrorMiddleware.err_code b
  /\ ErrorMiddleware.err_keyValue a = ErrorMiddleware.err_keyValue b
  /\ ErrorMiddleware.err_path a = ErrorMiddleware.err_path b.

(** A value as a query string decodes to it and that the rewrite of
    [filter()] leaves alone: the keys of each object are distinct, and no key
    and no string holds one of the four words. *)
Fixpoint plain (v : QVal) : Prop :=
  match v with
  | QStr s => operator_free s
  | QArr items =>
      (fix all (l : list QVal) : Prop :=
         match l with
         | [] => True
         | w :: r => plain w /\ all r
         end) items
  | QObj fields =>
      NoDup (map fst fields)
      /\ (fix all (l : list (string * QVal)) : Prop :=
            match l with
            | [] => True
            | kv :: r => operator_free (fst kv) /\ plain (snd kv) /\ all r
            end) fields
  end.

(** The two requests come from the same user with the same rating and
    comment. *)
Definition same_submission (a b : ReviewRequest) : Prop :=
  req_user_id a = req_user_id b
  /\ body_rating a = body_rating b
  /\ body_comment a = body_comment b.

(** The filter of the listing: what [search()] and [filter()] have merged
    into that of [Product.find()]. *)
Definition listing_conditions (q : QueryString) : QVal :=
  match ApiFeatures.filter
          (ApiFeatures.search
             {| ApiFeatures.query := Store.find_all;
                ApiFeatures.queryStr := q |}) with
  | Some a => Store.conditions (ApiFeatures.query a)
  | None => QObj []
  end.

(** The parameters without the entries [page] and [limit]. *)
Definition without_paging (q : QueryString) : QueryString :=
  ApiFeatures.delete "limit" (ApiFeatures.delete "page" q).

End Wellformed.

(** * Properties *)

(** ** Numbers *)

Section Numbers.

Import JS.

Lemma Qeq_bool_inject_Z_pos (n : nat) :
  (0 < n)%nat -> Qeq_bool (inject_Z (Z.of_nat n)) 0 = false.
Proof.
  intros Hn. apply not_true_is_false. intros H.
  apply Qeq_bool_iff in H. unfold Qeq in H. simpl in H. lia.
Qed.

Lemma num_div_count (s : Q) (n : nat) :
  (0 < n)%nat ->
  num_div (Fin s) (of_nat n) = Fin (Qred (s / inject_Z (Z.of_nat n))).
Proof.
  intros Hn. unfold of_nat, of_Z. simpl.
  rewrite (Qeq_bool_inject_Z_pos n Hn). reflexivity.
Qed.

End Numbers.

(** ** Reviews *)

Section Reviews.

Import JS Qs ProductController Notions.

Lemma hex_digits_length (n : nat) (v : N) (acc : string) :
  String.length (hex_digits n v acc) = (n + String.length acc)%nat.
Proof.
  revert v acc. induction n as [|n IH]; intros v acc; simpl.
  - reflexivity.
  - rewrite IH. simpl. lia.
Qed.

Lemma oid_toString_not_empty (o : ObjectId) :
  String.eqb (oid_toString o) EmptyString = false.
Proof.
  apply String.eqb_neq. intros H.
  apply (f_equal String.length) in H.
  unfold oid_toString in H. rewrite hex_digits_length in H. discriminate H.
Qed.

Lemma fold_numbers (rs : list Review) (qs : list Q) (a : Q) :
  map rating rs = numbers qs ->
  exists s,
    fold_left (fun avg rev => js_add avg (rating rev)) rs (VNum (Fin a))
    = VNum (Fin s)
    /\ (s == a + Qsum qs)%Q.
Proof.
  revert qs a. induction rs as [|r rs IH]; intros qs a Hmap.
  - destruct qs; [|discriminate Hmap]. exists a. split; [reflexivity|].
    simpl. ring.
  - destruct qs as [|q qs]; [discriminate Hmap|].
    simpl in Hmap. injection Hmap as Hr Hrs.
    simpl. rewrite Hr. unfold js_add. simpl.
    destruct (IH qs (Qred (a + q)) Hrs) as [s [Hs Heq]].
    exists s. split; [exact Hs|].
    rewrite Heq, Qred_correct. ring.
Qed.

(** On ratings that are numbers, the accumulation followed by the division
    is the arithmetic mean. *)
Lemma accumulate_mean (rs : list Review) (qs : list Q) :
  map rating rs = numbers qs ->
  rs <> [] ->
  exists m,
    js_div (accumulate rs) (VNum (of_nat (List.length rs))) = Fin m
    /\ (m == mean qs)%Q.
Proof.
  intros Hmap Hne.
  destruct (fold_numbers rs qs 0 Hmap) as [s [Hs Heq]].
  assert (Hlen : List.length rs = List.length qs).
  { rewrite <- (length_map rating rs), Hmap. apply length_map. }
  assert (Hpos : (0 < List.length rs)%nat).
  { destruct rs; [contradiction|simpl; lia]. }
  unfold accumulate, js_div. rewrite Hs. simpl ToNumber.
  rewrite (num_div_count s _ Hpos).
  eexists. split; [reflexivity|].
  rewrite Qred_correct. unfold mean. rewrite <- Hlen, Heq.
  field. intros H. unfold Qeq in H. simpl in H. lia.
Qed.

End Reviews.

Section ReviewUpsert.

Import JS Qs ProductController Notions.

Lemma Done_inj {A : Type} (a b : A) : Done a = Done b -> a = b.
Proof. intros H. inversion H. reflexivity. Qed.

Lemma same_user_author (u : ObjectId) (rev : Review) :
  same_user u rev = true <-> author rev = oid_toString u.
Proof. unfold same_user, author. apply String.eqb_eq. Qed.

Lemma find_same_user_none (u : ObjectId) (rs : list Review) :
  find (same_user u) rs = None <-> ~ In (oid_toString u) (map author rs).
Proof.
  split.
  - intros Hf Hin. apply in_map_iff in Hin. destruct Hin as [rev [Ha Hin]].
    apply (find_none _ _ Hf) in Hin.
    apply same_user_author in Ha. congruence.
  - intros Hn. destruct (find (same_user u) rs) as [rev|] eqn:Hf; [|reflexivity].
    apply find_some in Hf. destruct Hf as [Hin Hs].
    exfalso. apply Hn. apply in_map_iff. exists rev. split; [|exact Hin].
    apply same_user_author. exact Hs.
Qed.

(** A rating that is a number, or a string that reads as one, is cast to
    that number, which is also what [Number] makes of it. *)
Lemma rating_is_cast (v : JsValue) (q : Q) :
  rating_is v q ->
  castNumber v = Some (VNum (Fin q)) /\ ToNumber v = Fin q.
Proof.
  intros [Hv|[s [Hv [Hne Hs]]]]; subst v.
  - split; reflexivity.
  - cbn [castNumber ToNumber]. apply String.eqb_neq in Hne.
    rewrite Hne, Hs. split; reflexivity.
Qed.

Lemma assign_rating_is (old v : JsValue) (q : Q) :
  rating_is v q -> assign old v = VNum (Fin q).
Proof.
  intros Hv. unfold assign. rewrite (proj1 (rating_is_cast v q Hv)).
  reflexivity.
Qed.

Lemma revised_rating_is (req : ReviewRequest) (rev : Review) (q : Q) :
  rating_is (body_rating req) q -> rating (revised req rev) = VNum (Fin q).
Proof. intros Hq. apply (assign_rating_is _ _ q Hq). Qed.

Lemma appended_rating_is (req : ReviewRequest) (q : Q) :
  rating_is (body_rating req) q -> rating (appended req) = VNum (Fin q).
Proof.
  intros Hq. cbn [appended rating].
  rewrite (proj2 (rating_is_cast _ q Hq)). reflexivity.
Qed.

(** A finite rating is stored as it is. *)
Lemma assign_ratings_Fin (p : Product) (m : Q) :
  assign_ratings p (Fin m) = set_ratings p (Fin m).
Proof. reflexivity. Qed.

(** The assignment of the rating leaves the other fields alone. *)
Lemma assign_ratings_fields (p : Product) (n : JsNum) :
  reviews (assign_ratings p n) = reviews p
  /\ numOfReviews (assign_ratings p n) = numOfReviews p
  /\ product_id (assign_ratings p n) = product_id p.
Proof.
  unfold assign_ratings.
  destruct (assign (VNum (ratings p)) (VNum n)); repeat split.
Qed.

(** Revising the entries of one user keeps every author. *)
Lemma revise_authors (req : ReviewRequest) (rs : list Review) :
  map author
      (map (fun rev => if same_user (req_user_id req) rev
                       then revised req rev else rev) rs)
  = map author rs.
Proof.
  rewrite map_map. apply map_ext. intros rev.
  destruct (same_user (req_user_id req) rev); reflexivity.
Qed.

(** Revising leaves the entries of the other users as they are. *)
Lemma revise_others (req : ReviewRequest) (rs : list Review) :
  ~ In (oid_toString (req_user_id req)) (map author rs) ->
  map (fun rev => if same_user (req_user_id req) rev
                  then revised req rev else rev) rs = rs.
Proof.
  induction rs as [|r rs IH]; intros Hn; cbn [map].
  - reflexivity.
  - destruct (same_user (req_user_id req) r) eqn:Hs.
    + exfalso. apply Hn. left. apply same_user_author. exact Hs.
    + rewrite IH; [reflexivity|]. intros Hin. apply Hn. right. exact Hin.
Qed.

(** The two paths of [createProductReview]. *)
Lemma createProductReview_paths (req : ReviewRequest) (product : Product) :
  createProductReview req (Some product)
  = match find (same_user (req_user_id req)) (reviews product) with
    | Some _ =>
        let rs := map (fun rev => if same_user (req_user_id req) rev
                                  then revised req rev else rev)
                      (reviews product) in
        Done (assign_ratings (set_reviews product rs)
                (js_div (accumulate rs) (VNum (of_nat (List.length rs)))))
    | None =>
        let rs := (reviews product ++ [appended req])%list in
        Done (assign_ratings
                (set_numOfReviews (set_reviews product rs) (List.length rs))
                (js_div (accumulate rs) (VNum (of_nat (List.length rs)))))
    end.
Proof.
  unfold createProductReview.
  destruct (find (same_user (req_user_id req)) (reviews product));
    reflexivity.
Qed.

(** C2.  [createProductReview] keeps the invariant "at most one review per
    user"; and when the user of the request already has a review on the
    product, that entry is revised where it stands: it takes the comment of
    the request and, for a rating that is a number or a string that reads as
    one, that number as its rating; the other entries, the length of the list
    and the stored review count are unchanged, and the user still has exactly
    one review. *)
Theorem createProductReview_one_review_per_user
    (req : ReviewRequest) (product : Product) :
  one_review_per_user (reviews product) ->
  exists product',
    createProductReview req (Some product) = Done product'
    /\ one_review_per_user (reviews product')
    /\ forall old,
         In old (reviews product) ->
         same_user (req_user_id req) old = true ->
         exists before after,
           reviews product = (before ++ old :: after)%list
           /\ reviews product' = (before ++ revised req old :: after)%list
           /\ List.length (reviews product') = List.length (reviews product)
           /\ numOfReviews product' = numOfReviews product
           /\ List.filter (same_user (req_user_id req)) (reviews product')
              = [revised req old]
           /\ _id (revised req old) = _id old
           /\ name (revised req old) = name old
           /\ comment (revised req old) = body_comment req
           /\ forall q,
                rating_is (body_rating req) q ->
                rating (revised req old) = VNum (Fin q).
Proof.
  intros Hinv. rewrite createProductReview_paths.
  destruct (find (same_user (req_user_id req)) (reviews product))
    as [hit|] eqn:Hfind; cbv zeta.
  - eexists. split; [reflexivity|].
    rewrite (proj1 (assign_ratings_fields _ _)).
    rewrite (proj1 (proj2 (assign_ratings_fields _ _))).
    cbn [reviews set_reviews numOfReviews]. split.
    + unfold one_review_per_user. rewrite revise_authors. exact Hinv.
    + intros old Hin Hs.
      destruct (in_split _ _ Hin) as [before [after Hsplit]].
      exists before, after. split; [exact Hsplit|].
      unfold one_review_per_user in Hinv. rewrite Hsplit in Hinv |- *.
      rewrite map_app in Hinv. cbn [map] in Hinv.
      pose proof (NoDup_remove_2 _ _ _ Hinv) as Hnot.
      apply same_user_author in Hs as Ha. rewrite Ha in Hnot.
      assert (Hb : ~ In (oid_toString (req_user_id req)) (map author before)).
      { intros H. apply Hnot. apply in_or_app. left. exact H. }
      assert (Haf : ~ In (oid_toString (req_user_id req)) (map author after)).
      { intros H. apply Hnot. apply in_or_app. right. exact H. }
      rewrite map_app. cbn [map]. rewrite Hs.
      rewrite (revise_others req before Hb), (revise_others req after Haf).
      split; [reflexivity|].
      split; [rewrite !length_app; reflexivity|].
      split; [reflexivity|].
      split.
      { rewrite filter_app. cbn [List.filter].
        assert (Hrev : same_user (req_user_id req) (revised req old) = true)
          by exact Hs.
        rewrite Hrev.
        assert (Hnone : forall l, ~ In (oid_toString (req_user_id req))
                                    (map author l) ->
                                  List.filter (same_user (req_user_id req)) l = []).
        { intros l Hl. induction l as [|x l IH]; [reflexivity|].
          cbn [List.filter].
          destruct (same_user (req_user_id req) x) eqn:Hx.
          - exfalso. apply Hl. left. apply same_user_author. exact Hx.
          - apply IH. intros H. apply Hl. right. exact H. }
        rewrite (Hnone before Hb), (Hnone after Haf). reflexivity. }
      split; [reflexivity|]. split; [reflexivity|]. split; [reflexivity|].
      intros q Hq. apply revised_rating_is. exact Hq.
  - eexists. split; [reflexivity|].
    rewrite (proj1 (assign_ratings_fields _ _)).
    cbn [reviews set_reviews set_numOfReviews]. split.
    + unfold one_review_per_user. rewrite map_app. cbn [map].
      apply find_same_user_none in Hfind.
      apply NoDup_app.
      * exact Hinv.
      * constructor; [intros []|constructor].
      * intros a Ha [Hb|[]]. apply Hfind. subst a. exact Ha.
    + intros old Hin Hs. apply (find_none _ _ Hfind) in Hin. congruence.
Qed.

End ReviewUpsert.

Section ReviewRemoval.

Import JS Qs ProductController Notions.

Lemma filter_unknown_review (rid : string) (rs : list Review) :
  unknown_review rid rs ->
  List.filter (fun rev => negb (String.eqb (oid_toString (_id rev)) rid)) rs = rs.
Proof.
  induction rs as [|r rs IH]; intros Hu; cbn [List.filter].
  - reflexivity.
  - destruct (String.eqb_spec (oid_toString (_id r)) rid) as [Heq|Hne].
    + exfalso. apply (Hu r); [left; reflexivity|exact Heq].
    + cbn [negb]. rewrite IH; [reflexivity|].
      intros rev Hin. apply Hu. right. exact Hin.
Qed.

(** What [deleteReview] computes from the list that remains. *)
Lemma deleteReview_rating (rs : list Review) :
  (if (List.length rs =? 0)%nat then Fin 0
   else js_div (accumulate rs) (VNum (of_nat (List.length rs))))
  = computed_rating rs.
Proof. destruct rs; reflexivity. Qed.

Lemma set_fields_same (product : Product) :
  set_numOfReviews
    (set_ratings (set_reviews product (reviews product)) (ratings product))
    (numOfReviews product) = product.
Proof. destruct product; reflexivity. Qed.

(** C8.  On a product with exactly one review, [deleteReview] with the
    identifier of that review completes and leaves an empty review list, a
    review count of 0 and a rating of 0. *)
Theorem deleteReview_last_review (product : Product) (rev : Review) :
  reviews product = [rev] ->
  exists product',
    deleteReview (id_param (product_id product)) (id_param (_id rev))
                 (Some product) = Done product'
    /\ reviews product' = []
    /\ numOfReviews product' = 0%nat
    /\ ratings product' = Fin 0.
Proof.
  intros Hone. unfold deleteReview, id_param.
  cbn [option_map Qs.toString].
  rewrite !oid_toString_not_empty. cbn [orb].
  rewrite Hone. cbn [List.filter].
  rewrite String.eqb_refl. cbn [negb List.length Nat.eqb].
  unfold findByIdAndUpdate.
  replace (ratings_valid (Fin 0)) with true by reflexivity.
  eexists. split; [reflexivity|]. repeat split.
Qed.

(** C9, as amended.  On a product whose stored review count and rating are
    those computed from its review list, and whose stored rating passes the
    validation of the update, [deleteReview] with two identifiers, neither of
    them empty, the second of which no entry of the list has, completes
    without an error and leaves the document as it is. *)
Theorem deleteReview_unknown_review
    (product : Product) (q_productId q_id : QVal) :
  unknown_review (Qs.toString q_id) (reviews product) ->
  aggregates_agree product ->
  ratings_valid (ratings product) = true ->
  Qs.toString q_productId <> EmptyString ->
  Qs.toString q_id <> EmptyString ->
  deleteReview (Some q_productId) (Some q_id) (Some product) = Done product.
Proof.
  intros Hunknown [Hcount Hrating] Hvalid Hpid Hrid.
  unfold deleteReview. cbn [option_map].
  apply String.eqb_neq in Hpid, Hrid. rewrite Hpid, Hrid. cbn [orb].
  rewrite (filter_unknown_review _ _ Hunknown), deleteReview_rating.
  unfold findByIdAndUpdate. rewrite <- Hrating, <- Hcount, Hvalid.
  rewrite set_fields_same. reflexivity.
Qed.

End ReviewRemoval.

Section ReviewMean.

Import JS Qs ProductController Notions Samples.





(** P7: a first review of 4. *)
Example first_review :
  createProductReview (request alice "Alice" (VNum (Fin 4)) "good" (oid 101))
                      (Some widget) = Done widget_4.
Proof. vm_compute. reflexivity. Qed.

(** P8: the same user again, with 2. *)
Example second_submission :
  createProductReview
    (request alice "Alice" (VNum (Fin 2)) "changed mind" (oid 102))
    (Some widget_4)
  = Done (with_reviews widget
            [review_by (oid 101) alice "Alice" (VNum (Fin 2)) "changed mind"]
            (Fin 2)).
Proof. vm_compute. reflexivity. Qed.

(** P9: ratings 5, 3 and 4 give 4, as ratings 5 and 3 do. *)
Example mean_5_3_4 :
  ratings widget_5_3 = Fin 4
  /\ computed_rating (reviews widget_5_3) = Fin 4
  /\ exists product',
       createProductReview (request carol "Carol" (VNum (Fin 4)) "fine" (oid 103))
                           (Some widget_5_3) = Done product'
       /\ map rating (reviews product') = numbers [5; 3; 4]%Q
       /\ ratings product' = Fin 4.
Proof.
  split; [reflexivity|]. split; [vm_compute; reflexivity|].
  eexists. split; [vm_compute; reflexivity|]. split; reflexivity.
Qed.


End ReviewMean.

Section ReviewCoercion.

Import JS Qs ProductController Notions Samples.



(** A rating that cannot be cast: sent again by Bob as "abc", it leaves his
    entry with the rating it had, and the comment is the new one. *)
Example rating_not_cast_on_update :
  createProductReview (request bob "Bob" (VStr "abc") "changed mind" (oid 103))
                      (Some widget_5_3)
  = Done (with_reviews widget
            [review_by (oid 101) alice "Alice" (VNum (Fin 5)) "great";
             review_by (oid 102) bob "Bob" (VNum (Fin 3)) "changed mind"]
            (Fin 4)).
Proof. vm_compute. reflexivity. Qed.

(** A request without a rating from Carol, who has no review yet: the
    appended entry has no rating, the accumulation is NaN, and the stored
    rating stays what it was. *)
Example rating_missing_on_append :
  createProductReview (request carol "Carol" VUndefined "fine" (oid 103))
                      (Some widget_5_3)
  = Done (with_reviews widget
            [review_by (oid 101) alice "Alice" (VNum (Fin 5)) "great";
             review_by (oid 102) bob "Bob" (VNum (Fin 3)) "fair";
             review_by (oid 103) carol "Carol" VUndefined "fine"]
            (Fin 4)).
Proof. vm_compute. reflexivity. Qed.

(** C9 as stated fails: the widget has no review and a stored rating of 5;
    [deleteReview] with an identifier that no review has completes and
    stores the rating 0. *)
Lemma deleteReview_unknown_review_stale_rating :
  unknown_review (oid_toString (oid 999)) (reviews widget_stale)
  /\ deleteReview (id_param (product_id widget_stale)) (id_param (oid 999))
                  (Some widget_stale)
     = Done (set_ratings widget_stale (Fin 0))
  /\ ratings (set_ratings widget_stale (Fin 0)) <> ratings widget_stale.
Proof.
  split; [intros rev []|]. split; [vm_compute; reflexivity|].
  vm_compute. discriminate.
Qed.

Lemma createProductReview_one_review_per_user_witness :
  one_review_per_user (reviews widget_4)
  /\ exists product',
       createProductReview
         (request alice "Alice" (VStr "2") "changed mind" (oid 102))
         (Some widget_4) = Done product'
       /\ one_review_per_user (reviews product')
       /\ forall old,
            In old (reviews widget_4) ->
            same_user alice old = true ->
            exists before after,
              reviews widget_4 = (before ++ old :: after)%list
              /\ reviews product'
                 = (before
                    ++ revised (request alice "Alice" (VStr "2")
                                        "changed mind" (oid 102)) old
                    :: after)%list
              /\ List.length (reviews product') = List.length (reviews widget_4)
              /\ numOfReviews product' = numOfReviews widget_4
              /\ List.filter (same_user alice) (reviews product')
                 = [revised (request alice "Alice" (VStr "2")
                                     "changed mind" (oid 102)) old]
              /\ _id (revised (request alice "Alice" (VStr "2")
                                       "changed mind" (oid 102)) old)
                 = _id old
              /\ name (revised (request alice "Alice" (VStr "2")
                                        "changed mind" (oid 102)) old)
                 = name old
              /\ comment (revised (request alice "Alice" (VStr "2")
                                           "changed mind" (oid 102)) old)
                 = "changed mind"
              /\ forall q,
                   rating_is (VStr "2") q ->
                   rating (revised (request alice "Alice" (VStr "2")
                                            "changed mind" (oid 102)) old)
                   = VNum (Fin q).
Proof.
  assert (H : one_review_per_user (reviews widget_4)).
  { unfold one_review_per_user. cbn [reviews widget_4 with_reviews set_ratings
      set_numOfReviews set_reviews map].
    constructor; [intros []|constructor]. }
  split; [exact H|].
  exact (createProductReview_one_review_per_user
           (request alice "Alice" (VStr "2") "changed mind" (oid 102))
           widget_4 H).
Defined.

Lemma deleteReview_last_review_witness :
  reviews widget_4
  = [review_by (oid 101) alice "Alice" (VNum (Fin 4)) "good"]
  /\ exists product',
       deleteReview (id_param (product_id widget_4)) (id_param (oid 101))
                    (Some widget_4) = Done product'
       /\ reviews product' = []
       /\ numOfReviews product' = 0%nat
       /\ ratings product' = Fin 0.
Proof.
  split; [reflexivity|].
  exact (deleteReview_last_review widget_4
           (review_by (oid 101) alice "Alice" (VNum (Fin 4)) "good") eq_refl).
Defined.

Lemma deleteReview_unknown_review_witness :
  unknown_review (Qs.toString (QStr (oid_toString (oid 999))))
                 (reviews widget_5_3)
  /\ aggregates_agree widget_5_3
  /\ ratings_valid (ratings widget_5_3) = true
  /\ deleteReview (id_param (product_id widget_5_3)) (id_param (oid 999))
                  (Some widget_5_3) = Done widget_5_3.
Proof.
  assert (Hu : unknown_review (Qs.toString (QStr (oid_toString (oid 999))))
                              (reviews widget_5_3)).
  { intros rev [H|[H|[]]]; subst rev; vm_compute; discriminate. }
  assert (Ha : aggregates_agree widget_5_3).
  { split; vm_compute; reflexivity. }
  assert (Hv : ratings_valid (ratings widget_5_3) = true)
    by (vm_compute; reflexivity).
  split; [exact Hu|]. split; [exact Ha|]. split; [exact Hv|].
  apply (deleteReview_unknown_review widget_5_3
           (QStr (oid_toString (product_id widget_5_3)))
           (QStr (oid_toString (oid 999))) Hu Ha Hv).
  - vm_compute. discriminate.
  - vm_compute. discriminate.
Defined.



End ReviewCoercion.

Section Pagination.

Import JS Qs Store ApiFeatures.

(** The page that [pagination] uses, from the number that the [page] entry
    converts to. *)
Lemma currentPage_cases (this : ApiFeatures) :
  currentPage this
  = match toNumber (get "page" (queryStr this)) with
    | Fin n => if Qeq_bool n 0 then Fin 1 else Fin n
    | NaN => Fin 1
    | n => n
    end.
Proof.
  unfold currentPage.
  destruct (toNumber (get "page" (queryStr this))) as [n| | |]; cbn [num_truthy];
    try reflexivity.
  destruct (Qeq_bool n 0); reflexivity.
Qed.

Lemma skip_of_finite (p n : Q) (this : ApiFeatures) :
  currentPage this = Fin n ->
  exists s, skip_of (Fin p) this = Fin s /\ (s == p * (n - 1))%Q.
Proof.
  intros Hpage. unfold skip_of. rewrite Hpage.
  cbn [num_sub num_neg num_add num_mul]. eexists. split; [reflexivity|].
  rewrite !Qred_correct. ring.
Qed.

Lemma currentPage_nonzero (n : Q) (this : ApiFeatures) :
  toNumber (get "page" (queryStr this)) = Fin n ->
  ~ (n == 0)%Q -> currentPage this = Fin n.
Proof.
  intros Hn Hnz. rewrite currentPage_cases, Hn.
  destruct (Qeq_bool n 0) eqn:Hz; [|reflexivity].
  apply Qeq_bool_iff in Hz. contradiction.
Qed.

Lemma currentPage_default (this : ApiFeatures) :
  get "page" (queryStr this) = None
  \/ toNumber (get "page" (queryStr this)) = NaN
  \/ (exists n, toNumber (get "page" (queryStr this)) = Fin n /\ (n == 0)%Q) ->
  currentPage this = Fin 1.
Proof.
  rewrite currentPage_cases. intros [Hnone|[Hnan|[n [Hn Hz]]]].
  - rewrite Hnone. reflexivity.
  - rewrite Hnan. reflexivity.
  - rewrite Hn. apply Qeq_bool_iff in Hz. rewrite Hz. reflexivity.
Qed.

(** C4 as stated fails at page 0: [Number("0") || 1] is 1, and the skip of
    [pagination(5)] is 0. *)
Lemma pagination_page_zero_skip :
  let this := {| query := find_all; queryStr := [("page", QStr "0")] |} in
  toNumber (get "page" (queryStr this)) = Fin 0
  /\ currentPage this = Fin 1
  /\ skip_option (query (pagination (Fin 5) this)) = Some (Fin 0)
  /\ num_ltb (Fin 0) (Fin 0) = false.
Proof. vm_compute. repeat split. Qed.

(** C4, as amended.  For a positive page size, a [page] entry that converts
    to a negative number gives the negative skip [pageSize * (page - 1)], no
    floor to page 1 is applied; a [page] entry that converts to zero gives
    the first page and a skip of zero. *)
Theorem pagination_negative_page (pageSize : Q) (this : ApiFeatures) :
  (0 < pageSize)%Q ->
  (forall n,
      toNumber (get "page" (queryStr this)) = Fin n -> (n < 0)%Q ->
      exists s,
        skip_option (query (pagination (Fin pageSize) this)) = Some (Fin s)
        /\ (s == pageSize * (n - 1))%Q /\ (s < 0)%Q)
  /\ (toNumber (get "page" (queryStr this)) = NegInf ->
      skip_option (query (pagination (Fin pageSize) this)) = Some NegInf)
  /\ (forall n,
      toNumber (get "page" (queryStr this)) = Fin n -> (n == 0)%Q ->
      exists s,
        currentPage this = Fin 1
        /\ skip_option (query (pagination (Fin pageSize) this)) = Some (Fin s)
        /\ (s == 0)%Q).
Proof.
  intros Hsize. split; [|split].
  - intros n Hn Hneg.
    assert (Hnz : ~ (n == 0)%Q).
    { intros Hz. rewrite Hz in Hneg. apply (Qlt_irrefl 0). exact Hneg. }
    destruct (skip_of_finite pageSize n this (currentPage_nonzero n this Hn Hnz))
      as [s [Hs Heq]].
    exists s. cbn [pagination query skip skip_option]. rewrite Hs.
    split; [reflexivity|]. split; [exact Heq|].
    rewrite Heq.
    setoid_replace (pageSize * (n - 1))%Q with (- (pageSize * (1 - n)))%Q by ring.
    apply Qopp_lt_compat with (p := 0%Q) (q := (pageSize * (1 - n))%Q).
    apply Qmult_lt_0_compat; [exact Hsize|].
    apply Qlt_minus_iff in Hneg.
    setoid_replace (1 - n)%Q with (1 + (0 + - n))%Q by ring.
    apply Qlt_trans with (y := (0 + - n)%Q); [exact Hneg|].
    rewrite <- (Qplus_0_l (0 + - n)) at 1.
    apply Qplus_lt_l. reflexivity.
  - intros Hinf. cbn [pagination query skip skip_option].
    unfold skip_of. rewrite currentPage_cases, Hinf.
    cbn [num_sub num_neg num_add num_mul num_sgn Qsgn].
    destruct pageSize as [num den]. unfold Qlt in Hsize. simpl in Hsize.
    cbn [Qnum]. destruct num; try lia. reflexivity.
  - intros n Hn Hz.
    assert (Hpage : currentPage this = Fin 1).
    { apply currentPage_default. right. right. exists n. split; assumption. }
    destruct (skip_of_finite pageSize 1 this Hpage) as [s [Hs Heq]].
    exists s. cbn [pagination query skip skip_option]. rewrite Hs.
    split; [exact Hpage|]. split; [reflexivity|]. rewrite Heq. ring.
Qed.

End Pagination.

Section PaginationWindow.

Import JS Qs Store ApiFeatures.

Lemma skip_of_page (this : ApiFeatures) (page : option QVal)
    (pageSize result : JsNum) :
  get "page" (queryStr this) = page ->
  num_mul pageSize
    (num_sub (let n := toNumber page in if num_truthy n then n else Fin 1)
             (Fin 1)) = result ->
  skip_of pageSize this = result.
Proof. intros Hpage Hresult. unfold skip_of, currentPage. rewrite Hpage. exact Hresult. Qed.

(** C6 as stated fails at page 0, a numeric value that is not used:
    [pagination(5)] skips 0 records, not 5 * (0 - 1). *)
Lemma pagination_page_zero_not_numeric_value :
  let this := {| query := find_all; queryStr := [("page", QStr "0")] |} in
  toNumber (get "page" (queryStr this)) = Fin 0
  /\ skip_option (query (pagination (Fin 5) this)) = Some (Fin 0)
  /\ num_mul (Fin 5) (num_sub (Fin 0) (Fin 1)) = Fin (-5)
  /\ Fin 0 <> Fin (-5).
Proof. vm_compute. repeat split. discriminate. Qed.

(** C6, as amended.  [pagination(pageSize)] sets the limit [pageSize] and
    the skip [pageSize * (currentPage - 1)], where [currentPage] is the number
    that the [page] entry converts to, and 1 when the entry is missing, does
    not convert to a number, or converts to zero.  [pagination(5)] with page
    "3" skips 10 records and returns at most 5 of those that meet the
    conditions; [pagination(8)] without a page, or with page "abc", gives the
    query that page "1" gives, with a skip of 0. *)
Theorem pagination_skip_and_limit :
  (forall (pageSize : Q) (this : ApiFeatures),
      limit_option (query (pagination (Fin pageSize) this)) = Some (Fin pageSize)
      /\ conditions (query (pagination (Fin pageSize) this))
         = conditions (query this)
      /\ (forall n,
             toNumber (get "page" (queryStr this)) = Fin n -> ~ (n == 0)%Q ->
             exists s,
               skip_option (query (pagination (Fin pageSize) this))
               = Some (Fin s)
               /\ (s == pageSize * (n - 1))%Q)
      /\ (get "page" (queryStr this) = None
          \/ toNumber (get "page" (queryStr this)) = NaN
          \/ (exists n, toNumber (get "page" (queryStr this)) = Fin n
                        /\ (n == 0)%Q) ->
          exists s,
            currentPage this = Fin 1
            /\ skip_option (query (pagination (Fin pageSize) this))
               = Some (Fin s)
            /\ (s == 0)%Q))
  /\ (forall (this : ApiFeatures) (collection : list ProductController.Product),
         get "page" (queryStr this) = Some (QStr "3") ->
         skip_option (query (pagination (Fin 5) this)) = Some (Fin 10)
         /\ exec (query (pagination (Fin 5) this)) collection
            = option_map (fun l => firstn 5 (skipn 10 l))
                         (matching (conditions (query this)) collection)
         /\ forall page,
              exec (query (pagination (Fin 5) this)) collection = Some page ->
              (List.length page <= 5)%nat)
  /\ (forall (this this' : ApiFeatures),
         query this = query this' ->
         get "page" (queryStr this) = None
         \/ get "page" (queryStr this) = Some (QStr "abc") ->
         get "page" (queryStr this') = Some (QStr "1") ->
         query (pagination (Fin 8) this) = query (pagination (Fin 8) this')
         /\ skip_option (query (pagination (Fin 8) this)) = Some (Fin 0)).
Proof.
  split; [|split].
  - intros pageSize this. split; [reflexivity|]. split; [reflexivity|]. split.
    + intros n Hn Hnz.
      destruct (skip_of_finite pageSize n this (currentPage_nonzero n this Hn Hnz))
        as [s [Hs Heq]].
      exists s. cbn [pagination query skip skip_option]. rewrite Hs.
      split; [reflexivity|exact Heq].
    + intros Hdefault.
      pose proof (currentPage_default this Hdefault) as Hpage.
      destruct (skip_of_finite pageSize 1 this Hpage) as [s [Hs Heq]].
      exists s. cbn [pagination query skip skip_option]. rewrite Hs.
      split; [exact Hpage|]. split; [reflexivity|]. rewrite Heq. ring.
  - intros this collection Hpage.
    assert (Hskip : skip_of (Fin 5) this = Fin 10).
    { apply (skip_of_page this _ _ _ Hpage). vm_compute. reflexivity. }
    assert (Hexec : exec (query (pagination (Fin 5) this)) collection
                    = option_map (fun l => firstn 5 (skipn 10 l))
                        (matching (conditions (query this)) collection)).
    { unfold exec. cbn [pagination query skip limit conditions].
      destruct (matching (conditions (query this)) collection) as [l|];
        [|reflexivity].
      unfold window. cbn [skip_option limit_option]. rewrite Hskip.
      reflexivity. }
    split; [cbn [pagination query skip skip_option]; rewrite Hskip; reflexivity|].
    split; [exact Hexec|].
    intros page Hsome. rewrite Hexec in Hsome.
    destruct (matching (conditions (query this)) collection) as [l|];
      [|discriminate Hsome].
    injection Hsome as Hsome. rewrite <- Hsome.
    exact (firstn_le_length 5 (skipn 10 l)).
  - intros this this' Hquery Hpage Hpage'.
    assert (Hskip : skip_of (Fin 8) this = Fin 0).
    { destruct Hpage as [Hpage|Hpage];
        apply (skip_of_page this _ _ _ Hpage); vm_compute; reflexivity. }
    assert (Hskip' : skip_of (Fin 8) this' = Fin 0).
    { apply (skip_of_page this' _ _ _ Hpage'). vm_compute. reflexivity. }
    unfold pagination. cbn [query]. rewrite Hskip, Hskip', Hquery.
    split; reflexivity.
Qed.

Lemma pagination_negative_page_witness :
  (0 < 5)%Q
  /\ exists s,
       skip_option
         (query (pagination (Fin 5)
                   {| query := find_all; queryStr := [("page", QStr "-2")] |}))
       = Some (Fin s)
       /\ (s == 5 * (-2 - 1))%Q /\ (s < 0)%Q.
Proof.
  split; [reflexivity|].
  apply (proj1 (pagination_negative_page 5%Q
                  {| query := find_all; queryStr := [("page", QStr "-2")] |}
                  eq_refl) (-2)%Q).
  - vm_compute. reflexivity.
  - reflexivity.
Defined.

Lemma pagination_skip_and_limit_witness :
  get "page" [("page", QStr "3")] = Some (QStr "3")
  /\ skip_option
       (query (pagination (Fin 5)
                 {| query := find_all; queryStr := [("page", QStr "3")] |}))
     = Some (Fin 10)
  /\ exists s,
       skip_option
         (query (pagination (Fin 5)
                   {| query := find_all; queryStr := [("page", QStr "3")] |}))
       = Some (Fin s)
       /\ (s == 5 * (3 - 1))%Q.
Proof.
  split; [reflexivity|]. split.
  - apply (proj1 (proj2 pagination_skip_and_limit)
             {| query := find_all; queryStr := [("page", QStr "3")] |} []
             eq_refl).
  - apply (proj1 (proj2 (proj2 (proj1 pagination_skip_and_limit 5%Q
             {| query := find_all; queryStr := [("page", QStr "3")] |})))
             3%Q).
    + vm_compute. reflexivity.
    + intros H. discriminate H.
Defined.

End PaginationWindow.

Section Search.

Import JS Qs ProductController Store ApiFeatures Notions Samples.








Lemma filter_all {A : Type} (l : list A) : List.filter (fun _ => true) l = l.
Proof. induction l as [|x l IH]; [reflexivity|]. cbn [List.filter]. rewrite IH. reflexivity. Qed.

(** The empty condition leaves the filter of a query as it is. *)
Lemma find_empty_condition (q : Query) :
  conditions (find (QObj []) q) = conditions q.
Proof. cbn [find conditions]. destruct (conditions q); reflexivity. Qed.




(** P2: "widget" and "WIDGET" find the widget and not the gadget. *)
Example search_widget :
  exec (query (search (listing [("keyword", QStr "widget")]))) [widget; gadget]
  = Some [widget]
  /\ exec (query (search (listing [("keyword", QStr "WIDGET")]))) [widget; gadget]
     = Some [widget].
Proof. split; vm_compute; reflexivity. Qed.


End Search.

(** ** The operator rewrite on JSON text *)

Section Rewrite.

Import JS Qs Json Notions.

Local Open Scope list_scope.

Lemma operators_are_words :
  Forall (fun w => forallb is_word w = true) operators.
Proof. repeat constructor. Qed.

Lemma strip_prefix_app (w x rest : Text) :
  forallb is_word w = true -> stops_word rest -> x <> [] ->
  match strip_prefix w (x ++ rest) with
  | Some t => boundary true t
  | None => false
  end
  = match strip_prefix w x with
    | Some t => boundary true t
    | None => false
    end.
Proof.
  revert x. induction w as [|a w IH]; intros x Hw Hrest Hx.
  - cbn [strip_prefix]. destruct x as [|c x]; [contradiction|]. reflexivity.
  - destruct x as [|c x]; [contradiction|]. cbn [app strip_prefix].
    cbn [forallb] in Hw. apply andb_true_iff in Hw. destruct Hw as [Ha Hw].
    destruct (Ascii.eqb a c); [|reflexivity].
    destruct x as [|d x].
    + cbn [app]. destruct w as [|b w].
      * destruct rest as [|e rest]; cbn [strip_prefix boundary];
          [reflexivity|].
        cbn [stops_word] in Hrest. rewrite Hrest. reflexivity.
      * cbn [strip_prefix]. destruct rest as [|e rest]; [reflexivity|].
        cbn [stops_word] in Hrest. cbn [forallb] in Hw.
        apply andb_true_iff in Hw.
        destruct Hw as [Hb _].
        destruct (Ascii.eqb_spec b e) as [Heq|_]; [|reflexivity].
        subst e. congruence.
    + apply IH; [exact Hw|exact Hrest|discriminate].
Qed.

Lemma match_operator_app (x rest : Text) :
  stops_word rest -> x <> [] ->
  match_operator (x ++ rest) = match_operator x.
Proof.
  intros Hrest Hx. unfold match_operator.
  pose proof operators_are_words as Hops.
  induction operators as [|w ws IH]; [reflexivity|].
  inversion Hops as [|w' ws' Hw Hws]; subst.
  cbn [find]. rewrite (strip_prefix_app w x rest Hw Hrest Hx).
  destruct (match strip_prefix w x with
            | Some t => boundary true t
            | None => false
            end); [reflexivity|].
  apply IH. exact Hws.
Qed.

(** The rewrite of a text followed by something that cannot continue a
    word is the rewrite of the text, followed by that of the rest. *)
Lemma replace_operators_app (x rest : Text) (after_word : bool) :
  stops_word rest ->
  replace_operators after_word (x ++ rest)
  = (replace_operators after_word x
     ++ replace_operators (ends_word after_word x) rest)%list.
Proof.
  intros Hrest. revert after_word.
  induction x as [|c x IH]; intros after_word.
  - reflexivity.
  - cbn [app replace_operators]. rewrite IH.
    change (boundary after_word (c :: x ++ rest))
      with (boundary after_word (c :: x)).
    change (c :: x ++ rest)%list with ((c :: x) ++ rest)%list.
    rewrite (match_operator_app (c :: x) rest Hrest) by discriminate.
    cbn [ends_word fold_left].
    destruct (boundary after_word (c :: x)); [|reflexivity].
    destruct (match_operator (c :: x)); reflexivity.
Qed.

(** No operator starts with a character other than g and l. *)
Lemma match_operator_other (c : ascii) (t : Text) :
  Ascii.eqb "g" c = false -> Ascii.eqb "l" c = false ->
  match_operator (c :: t) = None.
Proof.
  intros Hg Hl. unfold match_operator, operators.
  cbn [map list_ascii_of_string find strip_prefix]. rewrite Hg, Hl. reflexivity.
Qed.

Lemma replace_operators_other (c : ascii) (t : Text) (after_word : bool) :
  Ascii.eqb "g" c = false -> Ascii.eqb "l" c = false ->
  replace_operators after_word (c :: t)
  = c :: replace_operators (is_word c) t.
Proof.
  intros Hg Hl. cbn [replace_operators].
  rewrite (match_operator_other c t Hg Hl).
  destruct (boundary after_word (c :: t)); reflexivity.
Qed.

End Rewrite.

(** ** String literals *)

Section StringLiterals.

Import JS Qs Json Notions.

Local Open Scope list_scope.

(** How [JSON.stringify] writes a code unit: as itself, as a backslash and a
    character, or as [\u00] and two hexadecimal digits. *)
Lemma escape_char_shape (c : ascii) :
  (escape_char c = [c]
   /\ Ascii.eqb c dquote = false /\ Ascii.eqb c backslash = false
   /\ (code c <? 32)%nat = false /\ written_as_word c = is_word c)
  \/ (is_word c = false
      /\ exists e,
           escape_char c = [backslash; e]
           /\ Ascii.eqb e "u" = false /\ unescape_char e = Some c
           /\ Ascii.eqb "g" e = false /\ Ascii.eqb "l" e = false
           /\ is_word e = written_as_word c)
  \/ (is_word c = false /\ written_as_word c = true
      /\ exists h1 h2,
           escape_char c = [backslash; "u"%char; "0"%char; "0"%char; h1; h2]
           /\ unicode_escape "0" "0" h1 h2 = Some c
           /\ is_word h1 = true /\ is_word h2 = true
           /\ Ascii.eqb "g" h1 = false /\ Ascii.eqb "l" h1 = false
           /\ Ascii.eqb "g" h2 = false /\ Ascii.eqb "l" h2 = false).
Proof.
  destruct c as [[] [] [] [] [] [] [] []];
    first
      [ left; repeat split; reflexivity
      | right; left; split; [reflexivity|];
        eexists; split; [reflexivity|]; repeat split; reflexivity
      | right; right; split; [reflexivity|]; split; [reflexivity|];
        eexists; eexists; split; [reflexivity|]; repeat split; reflexivity ].
Qed.

Lemma word_written_plainly (c : ascii) :
  is_word c = true -> escape_char c = [c].
Proof.
  intros Hw.
  destruct (escape_char_shape c) as [[H _]|[[H _]|[H _]]];
    [exact H|congruence|congruence].
Qed.

Lemma backslash_not_word (a : ascii) :
  is_word a = true -> Ascii.eqb a backslash = false.
Proof.
  intros Hw. destruct (Ascii.eqb_spec a backslash) as [Heq|]; [|reflexivity].
  subst a. discriminate Hw.
Qed.

(** An operator is read in the written text where it is read in the
    string. *)
Lemma strip_prefix_escape (w l : Text) :
  forallb is_word w = true ->
  match strip_prefix w (escape l) with
  | Some t => boundary true t
  | None => false
  end
  = match strip_prefix w l with
    | Some t => boundary true t
    | None => false
    end.
Proof.
  revert l. induction w as [|a w IH]; intros l Hw.
  - cbn [strip_prefix]. destruct l as [|c l]; [reflexivity|].
    cbn [escape flat_map boundary].
    destruct (escape_char_shape c)
      as [[H _]|[[Hc [e [H _]]]|[Hc [_ [h1 [h2 [H _]]]]]]];
      rewrite H; cbn [app]; [reflexivity| |]; rewrite Hc; reflexivity.
  - cbn [forallb] in Hw. apply andb_true_iff in Hw. destruct Hw as [Ha Hw].
    destruct l as [|c l]; [reflexivity|].
    cbn [escape flat_map strip_prefix]. fold (escape l).
    destruct (Ascii.eqb_spec a c) as [Heq|Hne].
    + subst c. rewrite (word_written_plainly a Ha). cbn [app strip_prefix].
      rewrite Ascii.eqb_refl. apply IH. exact Hw.
    + pose proof (backslash_not_word a Ha) as Hb.
      destruct (escape_char_shape c)
        as [[H _]|[[Hc [e [H _]]]|[Hc [_ [h1 [h2 [H _]]]]]]];
        rewrite H; cbn [app strip_prefix].
      * apply Ascii.eqb_neq in Hne. rewrite Hne. reflexivity.
      * rewrite Hb. reflexivity.
      * rewrite Hb. reflexivity.
Qed.

Lemma match_operator_escape (l : Text) :
  match_operator (escape l) = match_operator l.
Proof.
  unfold match_operator. pose proof operators_are_words as Hops.
  induction operators as [|w ws IH]; [reflexivity|].
  inversion Hops as [|w' ws' Hw Hws]; subst.
  cbn [find]. rewrite (strip_prefix_escape w l Hw).
  destruct (match strip_prefix w l with
            | Some t => boundary true t
            | None => false
            end); [reflexivity|].
  apply IH. exact Hws.
Qed.

Lemma match_operator_word (l : Text) (c : ascii) (w : Text) :
  match_operator (c :: l) = Some w -> is_word c = true.
Proof.
  intros Hm.
  destruct (Ascii.eqb_spec "g"%char c) as [Hg|Hg]; [subst c; reflexivity|].
  destruct (Ascii.eqb_spec "l"%char c) as [Hl|Hl]; [subst c; reflexivity|].
  apply Ascii.eqb_neq in Hg, Hl.
  rewrite (match_operator_other c l Hg Hl) in Hm. discriminate Hm.
Qed.

(** The rewrite of a written string is the written form of the string with
    its dollar signs. *)
Lemma replace_operators_escape (l : Text) (after_word : bool) :
  replace_operators after_word (escape l)
  = escape (dollar_operators after_word l).
Proof.
  revert after_word. induction l as [|c l IH]; intros after_word.
  - reflexivity.
  - cbn [escape flat_map dollar_operators]. fold (escape l).
    destruct (match_operator (c :: l)) as [w|] eqn:Hm.
    + pose proof (match_operator_word l c w Hm) as Hw.
      pose proof (word_written_plainly c Hw) as Hplain.
      assert (Hww : written_as_word c = true).
      { unfold written_as_word. rewrite Hw. reflexivity. }
      assert (Hesc : match_operator (c :: escape l) = Some w).
      { rewrite <- Hm, <- (match_operator_escape (c :: l)).
        cbn [escape flat_map]. rewrite Hplain. reflexivity. }
      rewrite Hplain. cbn [app replace_operators boundary].
      rewrite Hesc, Hw, Hww, IH.
      destruct (xorb after_word true);
        cbn [escape flat_map]; rewrite Hplain; reflexivity.
    + assert (Hrest :
        replace_operators after_word (escape_char c ++ escape l)
        = escape_char c ++ replace_operators (written_as_word c) (escape l)).
      { destruct (escape_char_shape c)
          as [[H [_ [_ [_ Hww]]]]
             |[[Hc [e [H [_ [_ [Hg [Hl Hww]]]]]]]
              |[Hc [Hww [h1 [h2 [H [_ [H1 [H2 [Hg1 [Hl1 [Hg2 Hl2]]]]]]]]]]]]];
          rewrite H; cbn [app].
        - cbn [replace_operators].
          assert (Hesc : match_operator (c :: escape l) = None).
          { rewrite <- Hm, <- (match_operator_escape (c :: l)).
            cbn [escape flat_map]. rewrite H. reflexivity. }
          rewrite Hesc, Hww.
          destruct (boundary after_word (c :: escape l)); reflexivity.
        - rewrite (replace_operators_other backslash) by reflexivity.
          rewrite (replace_operators_other e _ _ Hg Hl), Hww. reflexivity.
        - rewrite (replace_operators_other backslash) by reflexivity.
          rewrite (replace_operators_other "u"%char) by reflexivity.
          rewrite (replace_operators_other "0"%char) by reflexivity.
          rewrite (replace_operators_other "0"%char) by reflexivity.
          rewrite (replace_operators_other h1 _ _ Hg1 Hl1).
          rewrite (replace_operators_other h2 _ _ Hg2 Hl2), H2, Hww.
          reflexivity. }
      rewrite Hrest, IH.
      destruct (boundary after_word (c :: l)); cbn [escape flat_map];
        reflexivity.
Qed.

(** [JSON.parse] reads a written string back. *)
Lemma parse_string_escape (l rest : Text) :
  parse_string (escape l ++ dquote :: rest) = Some (l, rest).
Proof.
  induction l as [|c l IH].
  - reflexivity.
  - cbn [escape flat_map]. fold (escape l). rewrite <- app_assoc.
    destruct (escape_char_shape c)
      as [[H [Hq [Hb [Hc _]]]]
         |[[_ [e [H [Hu [He _]]]]]
          |[_ [_ [h1 [h2 [H [Hu _]]]]]]]];
      rewrite H; cbn [app parse_string].
    + rewrite Hq, Hb, Hc, IH. reflexivity.
    + change (Ascii.eqb backslash dquote) with false.
      change (Ascii.eqb backslash backslash) with true.
      cbn iota. rewrite Hu, He, IH. reflexivity.
    + change (Ascii.eqb backslash dquote) with false.
      change (Ascii.eqb backslash backslash) with true.
      change (Ascii.eqb "u" "u") with true.
      cbn iota. rewrite Hu, IH. reflexivity.
Qed.

End StringLiterals.

(** ** Values *)

Section Values.

Import JS Qs Json Notions.

Local Open Scope list_scope.

(** Induction on a value, its items and its fields. *)
Lemma QVal_induction (P : QVal -> Prop) :
  (forall s, P (QStr s)) ->
  (forall items, Forall P items -> P (QArr items)) ->
  (forall fields, Forall (fun kv => P (snd kv)) fields -> P (QObj fields)) ->
  forall v, P v.
Proof.
  intros Hstr Harr Hobj.
  fix IH 1. intros [s|items|fields].
  - apply Hstr.
  - apply Harr. induction items as [|v items IHitems]; constructor.
    + apply IH.
    + exact IHitems.
  - apply Hobj. induction fields as [|[k v] fields IHfields]; constructor.
    + apply IH.
    + exact IHfields.
Qed.

Lemma commas_cons {A : Type} (f : A -> Text) (a : A) (l : list A) (tail : Text) :
  commas (map f (a :: l)) ++ tail
  = f a ++ match l with
           | [] => tail
           | _ :: _ => ","%char :: commas (map f l) ++ tail
           end.
Proof.
  destruct l as [|b l]; [reflexivity|].
  cbn [map commas]. rewrite <- app_assoc. reflexivity.
Qed.

(** The rewrite goes through a list of pieces separated by commas and
    closed by [closing], when it goes through each piece. *)
Lemma replace_operators_commas {A : Type} (f g : A -> Text) (l : list A)
    (closing : ascii) (rest : Text) (after_word : bool) :
  Ascii.eqb "g" closing = false -> Ascii.eqb "l" closing = false ->
  is_word closing = false ->
  Forall (fun a => forall p t,
              replace_operators p (f a ++ t)
              = g a ++ replace_operators false t) l ->
  l <> [] ->
  replace_operators after_word (commas (map f l) ++ closing :: rest)
  = commas (map g l) ++ closing :: replace_operators false rest.
Proof.
  intros Hg Hl Hw Hall. revert after_word.
  induction Hall as [|a l Ha Hall IH]; intros after_word Hne;
    [contradiction|].
  rewrite !commas_cons, Ha. destruct l as [|b l].
  - rewrite (replace_operators_other closing _ _ Hg Hl), Hw. reflexivity.
  - rewrite (replace_operators_other ","%char) by reflexivity.
    rewrite IH by discriminate. reflexivity.
Qed.

Lemma replace_operators_quote (s : string) (rest : Text) (after_word : bool) :
  replace_operators after_word (quote s ++ rest)
  = quote (with_dollars s) ++ replace_operators false rest.
Proof.
  unfold quote, with_dollars. rewrite list_ascii_of_string_of_list_ascii.
  cbn [app]. rewrite <- !app_assoc. cbn [app].
  rewrite (replace_operators_other dquote) by reflexivity.
  rewrite replace_operators_app by reflexivity.
  rewrite replace_operators_escape.
  rewrite (replace_operators_other dquote) by reflexivity.
  reflexivity.
Qed.

(** The rewrite of the text of a value is the text of the rewritten
    value. *)
Lemma replace_operators_stringify (v : QVal) :
  forall after_word rest,
    replace_operators after_word (stringify v ++ rest)
    = stringify (rewritten v) ++ replace_operators false rest.
Proof.
  induction v as [s|items IH|fields IH] using QVal_induction;
    intros after_word rest.
  - apply replace_operators_quote.
  - cbn [stringify rewritten]. cbn [app]. rewrite <- !app_assoc. cbn [app].
    rewrite (replace_operators_other "["%char) by reflexivity.
    destruct items as [|v items].
    + cbn [map commas app].
      rewrite (replace_operators_other "]"%char) by reflexivity.
      reflexivity.
    + rewrite map_map.
      rewrite (replace_operators_commas stringify
                 (fun v => stringify (rewritten v)));
        [reflexivity|reflexivity|reflexivity|reflexivity|exact IH|discriminate].
  - cbn [stringify rewritten]. cbn [app]. rewrite <- !app_assoc. cbn [app].
    rewrite (replace_operators_other "{"%char) by reflexivity.
    destruct fields as [|kv fields].
    + cbn [map commas app].
      rewrite (replace_operators_other "}"%char) by reflexivity.
      reflexivity.
    + rewrite map_map.
      rewrite (replace_operators_commas
                 (fun kv => quote (fst kv) ++ ":"%char :: stringify (snd kv))
                 (fun kv => quote (with_dollars (fst kv))
                            ++ ":"%char :: stringify (rewritten (snd kv))));
        [reflexivity|reflexivity|reflexivity|reflexivity| |discriminate].
      eapply Forall_impl; [|exact IH].
      intros [k w] Hkw p t. cbn [fst snd] in *.
      rewrite <- app_assoc. cbn [app].
      rewrite replace_operators_quote.
      rewrite (replace_operators_other ":"%char) by reflexivity.
      rewrite Hkw, <- app_assoc. reflexivity.
Qed.

End Values.

(** ** [JSON.parse] after [JSON.stringify] *)

Section ParseStringify.

Import JS Qs Json Notions.

Local Open Scope list_scope.
Local Open Scope nat_scope.

(** A value is written from an opening character on. *)
Lemma stringify_head (v : QVal) :
  exists c t,
    stringify v = c :: t
    /\ Ascii.eqb c "]" = false /\ Ascii.eqb c "}" = false.
Proof.
  destruct v as [s|items|fields]; cbn [stringify quote];
    eexists; eexists; (split; [reflexivity|]); split; reflexivity.
Qed.

Lemma parse_items_commas (items : list QVal) (rest : Text) :
  Forall (fun v => forall f t,
              need v <= f ->
              parse_value f (stringify v ++ t) = Some (rebuilt v, t)) items ->
  items <> [] ->
  forall f,
    fold_right (fun w n => S (need w + n)) 0 items <= f ->
    parse_items f (commas (map stringify items) ++ "]"%char :: rest)
    = Some (map rebuilt items, rest).
Proof.
  intros Hall. induction Hall as [|v items Hv Hall IH]; intros Hne f Hf;
    [contradiction|].
  cbn [fold_right] in Hf. destruct f as [|f]; [lia|].
  cbn [parse_items]. rewrite commas_cons, Hv by lia.
  destruct items as [|w items].
  - reflexivity.
  - change (Ascii.eqb "," ",") with true. cbn iota.
    rewrite IH; [reflexivity|discriminate|].
    cbn [fold_right] in Hf |- *. lia.
Qed.

Lemma parse_members_commas (fields : list (string * QVal)) (rest : Text) :
  Forall (fun kv => forall f t,
              need (snd kv) <= f ->
              parse_value f (stringify (snd kv) ++ t)
              = Some (rebuilt (snd kv), t)) fields ->
  fields <> [] ->
  forall f,
    fold_right (fun kv n => S (need (snd kv) + n)) 0 fields <= f ->
    parse_members f
      (commas (map (fun kv => quote (fst kv) ++ ":"%char :: stringify (snd kv))
                   fields)
       ++ "}"%char :: rest)
    = Some (map (fun kv => (fst kv, rebuilt (snd kv))) fields, rest).
Proof.
  intros Hall. induction Hall as [|[k v] fields Hv Hall IH]; intros Hne f Hf;
    [contradiction|].
  cbn [fold_right snd] in Hf. destruct f as [|f]; [lia|].
  rewrite (commas_cons
             (fun kv => quote (fst kv) ++ ":"%char :: stringify (snd kv))).
  cbn [fst snd] in *. unfold quote at 1. cbn [app]. rewrite <- !app_assoc.
  cbn [app parse_members].
  change (Ascii.eqb dquote dquote) with true. cbn iota.
  rewrite parse_string_escape.
  change (Ascii.eqb ":" ":") with true. cbn iota.
  rewrite Hv by lia. rewrite string_of_list_ascii_of_string.
  destruct fields as [|kv fields].
  - reflexivity.
  - change (Ascii.eqb "," ",") with true. cbn iota.
    rewrite IH; [reflexivity|discriminate|].
    cbn [fold_right] in Hf |- *. lia.
Qed.

(** With enough steps, the parser reads the text of a value back. *)
Lemma parse_value_stringify (v : QVal) :
  forall f rest,
    need v <= f ->
    parse_value f (stringify v ++ rest) = Some (rebuilt v, rest).
Proof.
  induction v as [s|items IH|fields IH] using QVal_induction;
    intros f rest Hf; (destruct f as [|f]; [cbn [need] in Hf; lia|]).
  - cbn [stringify quote app parse_value]. rewrite <- app_assoc. cbn [app].
    change (Ascii.eqb dquote dquote) with true. cbn iota.
    rewrite parse_string_escape, string_of_list_ascii_of_string. reflexivity.
  - cbn [need] in Hf. cbn [stringify app]. rewrite <- app_assoc.
    cbn [app parse_value].
    change (Ascii.eqb "[" dquote) with false.
    change (Ascii.eqb "[" "[") with true. cbn iota.
    destruct items as [|v items]; [reflexivity|].
    pose proof (parse_items_commas (v :: items) rest IH) as Hitems.
    rewrite commas_cons in Hitems |- *.
    destruct (stringify_head v) as [c [t [Hhead [Hc _]]]].
    rewrite Hhead in Hitems |- *. cbn [app] in Hitems |- *.
    rewrite Hc, Hitems; [reflexivity|discriminate|lia].
  - cbn [need] in Hf. cbn [stringify app]. rewrite <- app_assoc.
    cbn [app parse_value].
    change (Ascii.eqb "{" dquote) with false.
    change (Ascii.eqb "{" "[") with false.
    change (Ascii.eqb "{" "{") with true. cbn iota.
    destruct fields as [|kv fields]; [reflexivity|].
    pose proof (parse_members_commas (kv :: fields) rest IH) as Hfields.
    rewrite (commas_cons
               (fun kv => quote (fst kv) ++ ":"%char :: stringify (snd kv)))
      in Hfields |- *.
    unfold quote at 1 in Hfields. unfold quote at 1.
    cbn [app] in Hfields |- *.
    change (Ascii.eqb dquote "}") with false. cbn iota.
    rewrite Hfields; [reflexivity|discriminate|lia].
Qed.

Lemma need_commas {A : Type} (m : A -> nat) (f : A -> Text) (l : list A) :
  Forall (fun a => m a <= List.length (f a)) l ->
  fold_right (fun a n => S (m a + n)) 0 l
  <= S (List.length (commas (map f l))).
Proof.
  intros Hall. induction Hall as [|a l Ha Hall IH]; cbn [fold_right].
  - lia.
  - pose proof (commas_cons f a l []) as Hc. rewrite !app_nil_r in Hc.
    rewrite Hc. destruct l as [|b l].
    + rewrite app_nil_r. cbn [fold_right]. lia.
    + rewrite length_app. cbn [List.length]. lia.
Qed.

Lemma need_length (v : QVal) : need v <= List.length (stringify v).
Proof.
  induction v as [s|items IH|fields IH] using QVal_induction.
  - cbn [need stringify quote List.length]. lia.
  - cbn [need stringify List.length]. rewrite length_app. cbn [List.length].
    pose proof (need_commas need stringify items IH). lia.
  - cbn [need stringify List.length]. rewrite length_app. cbn [List.length].
    pose proof (need_commas (fun kv => need (snd kv))
                  (fun kv => quote (fst kv) ++ ":"%char :: stringify (snd kv))
                  fields) as H.
    assert (Hall : Forall (fun kv => need (snd kv)
                            <= List.length (quote (fst kv) ++ ":"%char
                                            :: stringify (snd kv))) fields).
    { eapply Forall_impl; [|exact IH]. intros kv Hkv. cbv beta in Hkv.
      rewrite length_app. cbn [List.length]. lia. }
    specialize (H Hall). apply le_n_S.
    eapply Nat.le_trans; [exact H|]. rewrite Nat.add_1_r. apply Nat.le_refl.
Qed.

(** [JSON.parse(JSON.stringify(v))]. *)
Lemma parse_stringify (v : QVal) : parse (stringify v) = Some (rebuilt v).
Proof.
  unfold parse.
  pose proof (parse_value_stringify v (List.length (stringify v)) []
                (need_length v)) as H.
  rewrite app_nil_r in H. rewrite H. reflexivity.
Qed.

(** The argument of [JSON.parse] in [filter()] always parses: to the value
    with its dollar signs. *)
Lemma parse_replace_operators (v : QVal) :
  parse (replace_operators false (stringify v))
  = Some (rebuilt (rewritten v)).
Proof.
  pose proof (replace_operators_stringify v false []) as H.
  rewrite !app_nil_r in H. rewrite H. apply parse_stringify.
Qed.

End ParseStringify.

(** ** [filter()] *)

Section Filter.

Import JS Qs Json ProductController Store ApiFeatures Notions Samples.

Local Open Scope list_scope.

Lemma in_delete (key : string) (obj : QueryString) (kv : string * QVal) :
  In kv (delete key obj) <-> In kv obj /\ fst kv <> key.
Proof.
  unfold delete. rewrite filter_In, negb_true_iff, String.eqb_neq.
  reflexivity.
Qed.

Lemma in_fold_delete (removed : list string) (obj : QueryString)
    (kv : string * QVal) :
  In kv (fold_left (fun copy key => delete key copy) removed obj)
  <-> In kv obj /\ ~ In (fst kv) removed.
Proof.
  revert obj. induction removed as [|key removed IH]; intros obj;
    cbn [fold_left].
  - split; [intros H; split; [exact H|intros []]|intros [H _]; exact H].
  - rewrite IH, in_delete. cbn [In]. split.
    + intros [[Hin Hne] Hnot]. split; [exact Hin|].
      intros [Heq|Hin']; [apply Hne; symmetry; exact Heq|exact (Hnot Hin')].
    + intros [Hin Hnot]. split; [split; [exact Hin|]|].
      * intros Heq. apply Hnot. left. symmetry. exact Heq.
      * intros Hin'. apply Hnot. right. exact Hin'.
Qed.

(** The copy that [filter()] serialises: the entries of the parameters other
    than [keyword], [page] and [limit]. *)
Lemma in_queryCopy (this : ApiFeatures) (kv : string * QVal) :
  In kv (queryCopy this)
  <-> In kv (queryStr this) /\ ~ In (fst kv) removeFields.
Proof. apply in_fold_delete. Qed.

Lemma keys_obj_set (k : string) (v : QVal) (obj : list (string * QVal))
    (key : string) :
  In key (keys (obj_set k v obj)) <-> key = k \/ In key (keys obj).
Proof.
  induction obj as [|[k' v'] obj IH]; cbn [obj_set keys map fst In].
  - split; [intros [H|[]]; left; symmetry; exact H
           |intros [H|[]]; left; symmetry; exact H].
  - destruct (String.eqb_spec k' k) as [Heq|Hne]; cbn [keys map fst In].
    + subst k'. split; [intros H; right; exact H|].
      intros [H|H]; [left; symmetry; exact H|exact H].
    + fold (keys (obj_set k v obj)). rewrite IH. fold (keys obj).
      split; [intros [H|[H|H]]|intros [H|[H|H]]]; auto.
Qed.

Lemma keys_build_object (members : list (string * QVal)) (key : string) :
  In key (keys (build_object members)) <-> In key (keys members).
Proof.
  unfold build_object.
  assert (H : forall acc,
             In key (keys (fold_left (fun obj kv => obj_set (fst kv) (snd kv) obj)
                                     members acc))
             <-> In key (keys acc) \/ In key (keys members)).
  { induction members as [|[k v] members IH]; intros acc; cbn [fold_left].
    - cbn [keys map In]. split; [intros H; left; exact H|intros [H|[]]; exact H].
    - rewrite IH, keys_obj_set. cbn [keys map fst snd In].
      split; [intros [[H|H]|H]|intros [H|[H|H]]]; auto. }
  rewrite H. cbn [keys map In]. split; [intros [[]|Hm]; exact Hm|auto].
Qed.

(** The dollar signs are all that the rewrite adds. *)
Lemma dollar_operators_same_or_dollar (l : Text) (after_word : bool) :
  dollar_operators after_word l = l
  \/ In "$"%char (dollar_operators after_word l).
Proof.
  revert after_word. induction l as [|c l IH]; intros after_word.
  - left. reflexivity.
  - cbn [dollar_operators].
    destruct (boundary after_word (c :: l));
      [destruct (match_operator (c :: l))|].
    + right. left. reflexivity.
    + destruct (IH (written_as_word c)) as [H|H];
        [left; rewrite H; reflexivity|right; right; exact H].
    + destruct (IH (written_as_word c)) as [H|H];
        [left; rewrite H; reflexivity|right; right; exact H].
Qed.

Lemma with_dollars_reserved (k : string) :
  In (with_dollars k) removeFields -> In k removeFields.
Proof.
  intros Hin. unfold with_dollars in Hin.
  destruct (dollar_operators_same_or_dollar (list_ascii_of_string k) false)
    as [Hsame|Hdollar].
  - rewrite Hsame, string_of_list_ascii_of_string in Hin. exact Hin.
  - exfalso.
    set (l := dollar_operators false (list_ascii_of_string k)) in *.
    assert (Hl : forall name, In name removeFields ->
                              ~ In "$"%char (list_ascii_of_string name)).
    { intros name [H|[H|[H|[]]]]; subst name; cbn;
        intros Hf; repeat (destruct Hf as [Hf|Hf]; [discriminate Hf|]);
        exact Hf. }
    apply (Hl _ Hin). rewrite list_ascii_of_string_of_list_ascii.
    exact Hdollar.
Qed.

(** What [filter()] does: it always completes, with the rewritten and rebuilt
    copy as its condition. *)
Lemma filter_condition (this : ApiFeatures) :
  filter this
  = Some {| query := find (rebuilt (rewritten (QObj (queryCopy this))))
                          (query this);
            queryStr := queryStr this |}.
Proof.
  unfold filter, filter_text. rewrite parse_replace_operators. reflexivity.
Qed.

(** C5 as stated fails: the parameter [gt=5] gives the condition
    [{"$gt": "5"}], whose key is not a key of the parameters. *)
Lemma filter_operator_key :
  option_map (fun this => conditions (query this))
             (filter (listing [("gt", QStr "5")]))
  = Some (QObj [("$gt", QStr "5")])
  /\ ~ In "$gt" (keys [("gt", QStr "5")])
  /\ ~ In "gt" (keys [("$gt", QStr "5")]).
Proof.
  split; [vm_compute; reflexivity|].
  split; intros [H|[]]; discriminate H.
Qed.

(** C5, as amended.  [filter()] completes, and the top-level keys of its
    condition are exactly the top-level keys of the parameters other than
    [keyword], [page] and [limit], each with a dollar sign before its bare
    words gt, gte, lt, lte; the three keys never appear, and when no key
    remains the condition is empty and no narrowing occurs. *)
Theorem filter_condition_keys (this : ApiFeatures) :
  exists entries,
    filter this
    = Some {| query := find (QObj entries) (query this);
              queryStr := queryStr this |}
    /\ (forall key,
           In key (keys entries)
           <-> exists k,
                 In k (keys (queryStr this)) /\ ~ In k removeFields
                 /\ key = with_dollars k)
    /\ (forall key, In key (keys entries) -> ~ In key removeFields)
    /\ ((forall k, In k (keys (queryStr this)) -> In k removeFields) ->
        entries = []
        /\ forall collection,
             matching (conditions (find (QObj entries) (query this))) collection
             = matching (conditions (query this)) collection).
Proof.
  set (members := map (fun kv => (with_dollars (fst kv), rebuilt (rewritten (snd kv))))
                      (queryCopy this)).
  assert (Hcond : rebuilt (rewritten (QObj (queryCopy this)))
                  = QObj (build_object members)).
  { cbn [rewritten rebuilt]. rewrite map_map. reflexivity. }
  assert (Hkeys : forall key,
             In key (keys (build_object members))
             <-> exists k,
                   In k (keys (queryStr this)) /\ ~ In k removeFields
                   /\ key = with_dollars k).
  { intros key. rewrite keys_build_object. unfold keys, members.
    rewrite map_map. cbn [fst]. rewrite in_map_iff. split.
    - intros [[k v] [Hkey Hin]]. cbn [fst] in Hkey.
      apply in_queryCopy in Hin. destruct Hin as [Hin Hnot].
      exists k. split; [|split; [exact Hnot|symmetry; exact Hkey]].
      apply in_map_iff. exists (k, v). split; [reflexivity|exact Hin].
    - intros [k [Hin [Hnot Hkey]]]. apply in_map_iff in Hin.
      destruct Hin as [[k' v] [Hk Hin]]. cbn [fst] in Hk. subst k'.
      exists (k, v). split; [symmetry; exact Hkey|].
      apply in_queryCopy. split; [exact Hin|exact Hnot]. }
  exists (build_object members).
  split; [rewrite filter_condition, Hcond; reflexivity|].
  split; [exact Hkeys|]. split.
  - intros key Hin Hreserved. apply Hkeys in Hin.
    destruct Hin as [k [_ [Hnot Hkey]]]. subst key.
    apply Hnot. apply with_dollars_reserved. exact Hreserved.
  - intros Hall.
    assert (Hempty : queryCopy this = []).
    { destruct (queryCopy this) as [|[k v] copy] eqn:Hcopy; [reflexivity|].
      assert (Hin : In (k, v) (queryCopy this)) by (rewrite Hcopy; left; reflexivity).
      apply in_queryCopy in Hin. destruct Hin as [Hin Hnot].
      exfalso. apply Hnot. apply Hall. apply in_map_iff.
      exists (k, v). split; [reflexivity|exact Hin]. }
    assert (Hnil : build_object members = []).
    { unfold members. rewrite Hempty. reflexivity. }
    rewrite Hnil. split; [reflexivity|].
    intros collection. rewrite find_empty_condition. reflexivity.
Qed.

(** P3: of [keyword], [page], [limit] and [category], the condition keeps
    [category]. *)
Example filter_reserved_keys :
  option_map (fun this => conditions (query this))
    (filter (listing [("keyword", QStr "x"); ("page", QStr "2");
                      ("limit", QStr "10"); ("category", QStr "Books")]))
  = Some (QObj [("category", QStr "Books")]).
Proof. vm_compute. reflexivity. Qed.

End Filter.

Section PriceRange.

Import JS Qs Json ProductController Store ApiFeatures Notions Samples.

Lemma num_leb_Fin (a b : Q) : num_leb (Fin a) (Fin b) = true <-> (a <= b)%Q.
Proof.
  unfold num_leb, num_ltb, num_eqb.
  rewrite orb_true_iff, negb_true_iff, Qeq_bool_iff. split.
  - intros [Hlt|Heq].
    + apply Qlt_le_weak. apply Qnot_le_lt. intros Hle.
      apply Qle_bool_iff in Hle. congruence.
    + rewrite Heq. apply Qle_refl.
  - intros Hle. destruct (Qle_bool b a) eqn:Hba; [right|left; reflexivity].
    apply Qle_bool_iff in Hba. apply Qle_antisym; assumption.
Qed.

Lemma matches_price_range (p : Product) (x : Q) :
  price p = Fin x ->
  matches price_range p
  = Some (num_leb (Fin 100) (Fin x) && (num_leb (Fin x) (Fin 500) && true)
          && true).
Proof.
  intros Hprice. unfold price_range, matches.
  cbn [eval_entries]. unfold eval_entry, field.
  cbn [String.eqb Ascii.eqb Bool.eqb]. rewrite Hprice.
  cbn [eval_num_ops].
  change (comparison "$gte") with (Some (fun a b => num_leb b a)).
  change (comparison "$lte") with (Some num_leb).
  change (cast_number "100") with (Some (Fin 100)).
  change (cast_number "500") with (Some (Fin 500)).
  reflexivity.
Qed.

(** C3.  On the parameters [{price: {gte: "100", lte: "500"}}], [filter()]
    adds the condition [{price: {$gte: "100", $lte: "500"}}], which holds of
    a product exactly when its price lies between 100 and 500, bounds
    included: it excludes the prices 99 and 501 and includes 100 and 500. *)
Theorem filter_price_range (q : Query) :
  filter {| query := q;
            queryStr := [("price", QObj [("gte", QStr "100");
                                         ("lte", QStr "500")])] |}
  = Some {| query := find price_range q;
            queryStr := [("price", QObj [("gte", QStr "100");
                                         ("lte", QStr "500")])] |}
  /\ (forall (p : Product) (x : Q),
         price p = Fin x ->
         exists b,
           matches price_range p = Some b
           /\ (b = true <-> (100 <= x /\ x <= 500)%Q))
  /\ matches price_range (priced (Fin 99)) = Some false
  /\ matches price_range (priced (Fin 100)) = Some true
  /\ matches price_range (priced (Fin 500)) = Some true
  /\ matches price_range (priced (Fin 501)) = Some false
  /\ exec (find price_range find_all)
          [priced (Fin 99); priced (Fin 100); priced (Fin 500);
           priced (Fin 501)]
     = Some [priced (Fin 100); priced (Fin 500)].
Proof.
  split; [rewrite filter_condition; vm_compute; reflexivity|].
  split.
  - intros p x Hprice. eexists. split; [apply (matches_price_range p x Hprice)|].
    rewrite !andb_true_r, andb_true_iff, !num_leb_Fin. reflexivity.
  - repeat split; vm_compute; reflexivity.
Qed.

End PriceRange.

Section Instances.

Import JS Qs Json ProductController Store ApiFeatures Notions Samples.

Lemma filter_price_range_witness :
  price (priced (Fin 250)) = Fin 250
  /\ exists b,
       matches price_range (priced (Fin 250)) = Some b
       /\ (b = true <-> (100 <= 250 /\ 250 <= 500)%Q).
Proof.
  split; [reflexivity|].
  exact (proj1 (proj2 (filter_price_range find_all))
               (priced (Fin 250)) 250%Q eq_refl).
Defined.

Lemma filter_condition_keys_witness :
  exists entries,
    filter (listing [("page", QStr "2"); ("category", QStr "Books")])
    = Some {| query := find (QObj entries) find_all;
              queryStr := [("page", QStr "2"); ("category", QStr "Books")] |}
    /\ (forall key,
           In key (keys entries)
           <-> exists k,
                 In k ["page"; "category"] /\ ~ In k removeFields
                 /\ key = with_dollars k)
    /\ (forall key, In key (keys entries) -> ~ In key removeFields)
    /\ ((forall k, In k ["page"; "category"] -> In k removeFields) ->
        entries = []
        /\ forall collection,
             matching (conditions (find (QObj entries) find_all)) collection
             = matching (conditions find_all) collection).
Proof.
  exact (filter_condition_keys
           (listing [("page", QStr "2"); ("category", QStr "Books")])).
Defined.

End Instances.

(** * Further properties of the review handlers *)

Section ReviewInvariants.

Import JS Qs ProductController Notions Samples Wellformed.

Local Open Scope list_scope.

Lemma computed_rating_nonempty (rs : list Review) :
  rs <> [] ->
  computed_rating rs = js_div (accumulate rs) (VNum (of_nat (List.length rs))).
Proof. destruct rs; [contradiction|reflexivity]. Qed.

Lemma deleteReview_done (q_productId q_id : option QVal)
    (product product' : Product) :
  deleteReview q_productId q_id (Some product) = Done product' ->
  exists rid,
    option_map Qs.toString q_id = Some rid
    /\ let rs := List.filter
                   (fun rev => negb (String.eqb (oid_toString (_id rev)) rid))
                   (reviews product) in
       ratings_valid (computed_rating rs) = true
       /\ product' = set_numOfReviews
                       (set_ratings (set_reviews product rs) (computed_rating rs))
                       (List.length rs).
Proof.
  intros Hdone. unfold deleteReview in Hdone.
  destruct (option_map Qs.toString q_productId) as [pid|];
    [|discriminate Hdone].
  destruct (option_map Qs.toString q_id) as [rid|]; [|discriminate Hdone].
  destruct (String.eqb pid EmptyString || String.eqb rid EmptyString);
    [discriminate Hdone|].
  rewrite deleteReview_rating in Hdone. unfold findByIdAndUpdate in Hdone.
  exists rid. split; [reflexivity|]. cbv zeta.
  set (rs := List.filter _ (reviews product)) in *.
  destruct (ratings_valid (computed_rating rs)); [|discriminate Hdone].
  apply Done_inj in Hdone. split; [reflexivity|]. symmetry. exact Hdone.
Qed.

Lemma find_same_user_some (u : ObjectId) (rs : list Review) (rev : Review) :
  In rev rs -> same_user u rev = true ->
  exists hit, List.find (same_user u) rs = Some hit.
Proof.
  intros Hin Hs. destruct (List.find (same_user u) rs) as [h|] eqn:Hf.
  - exists h. reflexivity.
  - apply (find_none _ _ Hf) in Hin. congruence.
Qed.

(** Assigning the same value again changes nothing. *)
Lemma assign_again (old v : JsValue) : assign (assign old v) v = assign old v.
Proof. unfold assign. destruct (castNumber v); reflexivity. Qed.

(** Revising again with the same rating and comment changes nothing. *)
Lemma revise_again (req req' : ReviewRequest) (rs : list Review) :
  same_submission req req' ->
  map (fun rev => if same_user (req_user_id req') rev
                  then revised req' rev else rev)
      (map (fun rev => if same_user (req_user_id req) rev
                       then revised req rev else rev) rs)
  = map (fun rev => if same_user (req_user_id req) rev
                    then revised req rev else rev) rs.
Proof.
  intros [Hu [Hr Hc]]. rewrite map_map. apply map_ext. intros rev.
  rewrite <- Hu.
  destruct (same_user (req_user_id req) rev) eqn:Hs.
  - assert (Hs' : same_user (req_user_id req) (revised req rev) = true)
      by exact Hs.
    rewrite Hs'. unfold revised. cbn [_id user name rating].
    rewrite <- Hr, <- Hc, assign_again. reflexivity.
  - rewrite Hs. reflexivity.
Qed.

(** Storing again the rating computed from the same reviews changes
    nothing. *)
Lemma assign_ratings_again (p : Product) (n : JsNum) :
  assign_ratings (set_reviews (assign_ratings p n) (reviews p)) n
  = assign_ratings p n.
Proof.
  unfold assign_ratings at 2 3. unfold assign. cbn [castNumber].
  destruct n as [m| | |]; unfold assign_ratings, assign; cbn [castNumber];
    destruct p; reflexivity.
Qed.

(** X2.  A review sent twice counts once: when the rating of the request is a
    number, sending the request again (whatever the identifier the store would
    give to a new entry) leaves the product as the first submission left
    it. *)
Theorem createProductReview_again
    (req req' : ReviewRequest) (product product' : Product) (n : JsNum) :
  body_rating req = VNum n ->
  same_submission req req' ->
  createProductReview req (Some product) = Done product' ->
  createProductReview req' (Some product') = Done product'.
Proof.
  intros Hn Hsame Hdone. pose proof Hsame as [Hu [Hr Hc]].
  rewrite createProductReview_paths in Hdone.
  destruct (List.find (same_user (req_user_id req)) (reviews product))
    as [hit|] eqn:Hfind; cbv zeta in Hdone; apply Done_inj in Hdone;
    subst product'; rewrite createProductReview_paths;
    rewrite (proj1 (assign_ratings_fields _ _));
    cbn [reviews set_reviews set_numOfReviews].
  - assert (Hfind' :
      exists hit',
        List.find (same_user (req_user_id req'))
          (map (fun rev => if same_user (req_user_id req) rev
                           then revised req rev else rev) (reviews product))
        = Some hit').
    { apply find_some in Hfind. destruct Hfind as [Hin Hs].
      apply (find_same_user_some _ _ (revised req hit)).
      - apply in_map_iff. exists hit. rewrite Hs. split; [reflexivity|exact Hin].
      - rewrite <- Hu. exact Hs. }
    destruct Hfind' as [hit' Hfind']. rewrite Hfind'. cbv zeta.
    rewrite (revise_again req req' (reviews product) Hsame).
    f_equal.
    exact (assign_ratings_again
             (set_reviews product
                (map (fun rev => if same_user (req_user_id req) rev
                                 then revised req rev else rev)
                     (reviews product)))
             _).
  - assert (Hnew : same_user (req_user_id req') (appended req) = true).
    { rewrite <- Hu. apply same_user_author. reflexivity. }
    assert (Hrs : map (fun rev => if same_user (req_user_id req') rev
                                  then revised req' rev else rev)
                      (reviews product ++ [appended req])
                  = reviews product ++ [appended req]).
    { rewrite map_app. cbn [map]. rewrite Hnew.
      apply find_same_user_none in Hfind. rewrite Hu in Hfind.
      rewrite (revise_others req' (reviews product) Hfind).
      unfold revised, appended. cbn [_id user name rating comment].
      rewrite <- Hr, <- Hc, Hn. cbn [ToNumber]. rewrite assign_again.
      reflexivity. }
    assert (Hfind' :
      exists hit',
        List.find (same_user (req_user_id req'))
                  (reviews product ++ [appended req]) = Some hit').
    { apply (find_same_user_some _ _ (appended req)); [|exact Hnew].
      apply in_or_app. right. left. reflexivity. }
    destruct Hfind' as [hit' Hfind']. rewrite Hfind'. cbv zeta.
    rewrite Hrs. f_equal.
    exact (assign_ratings_again
             (set_numOfReviews
                (set_reviews product (reviews product ++ [appended req]))
                (List.length (reviews product ++ [appended req])))
             _).
Qed.

Lemma createProductReview_again_witness :
  body_rating (request alice "Alice" (VNum (Fin 4)) "good" (oid 101))
  = VNum (Fin 4)
  /\ same_submission (request alice "Alice" (VNum (Fin 4)) "good" (oid 101))
                     (request alice "Alice" (VNum (Fin 4)) "good" (oid 150))
  /\ createProductReview
       (request alice "Alice" (VNum (Fin 4)) "good" (oid 150)) (Some widget_4)
     = Done widget_4.
Proof.
  assert (Hs : same_submission
                 (request alice "Alice" (VNum (Fin 4)) "good" (oid 101))
                 (request alice "Alice" (VNum (Fin 4)) "good" (oid 150)))
    by (repeat split).
  split; [reflexivity|]. split; [exact Hs|].
  apply (createProductReview_again
           (request alice "Alice" (VNum (Fin 4)) "good" (oid 101))
           (request alice "Alice" (VNum (Fin 4)) "good" (oid 150))
           widget widget_4 (Fin 4) eq_refl Hs).
  vm_compute. reflexivity.
Defined.

End ReviewInvariants.

Section ReviewBounds.

Import JS Qs ProductController Notions Samples Wellformed.

Local Open Scope list_scope.

Lemma count_succ (k : nat) :
  (inject_Z (Z.of_nat (S k)) == inject_Z (Z.of_nat k) + 1)%Q.
Proof. rewrite Nat2Z.inj_succ. unfold Z.succ. rewrite inject_Z_plus. reflexivity. Qed.

Lemma Qsum_within (lo hi : Q) (qs : list Q) :
  within lo hi qs ->
  (lo * inject_Z (Z.of_nat (List.length qs)) <= Qsum qs
   /\ Qsum qs <= hi * inject_Z (Z.of_nat (List.length qs)))%Q.
Proof.
  intros Hall. induction Hall as [|q qs [Hlo Hhi] Hall [IHlo IHhi]].
  - cbn [List.length Qsum fold_right]. split.
    + setoid_replace (lo * inject_Z (Z.of_nat 0))%Q with 0%Q by (cbn; ring).
      apply Qle_refl.
    + setoid_replace (hi * inject_Z (Z.of_nat 0))%Q with 0%Q by (cbn; ring).
      apply Qle_refl.
  - cbn [List.length]. rewrite count_succ.
    change (Qsum (q :: qs)) with (q + Qsum qs)%Q. split.
    + setoid_replace (lo * (inject_Z (Z.of_nat (List.length qs)) + 1))%Q
        with (lo + lo * inject_Z (Z.of_nat (List.length qs)))%Q by ring.
      apply Qplus_le_compat; assumption.
    + setoid_replace (hi * (inject_Z (Z.of_nat (List.length qs)) + 1))%Q
        with (hi + hi * inject_Z (Z.of_nat (List.length qs)))%Q by ring.
      apply Qplus_le_compat; assumption.
Qed.

(** The mean of numbers between two bounds lies between the bounds. *)
Lemma mean_within (lo hi : Q) (qs : list Q) :
  qs <> [] -> within lo hi qs -> (lo <= mean qs /\ mean qs <= hi)%Q.
Proof.
  intros Hne Hall. destruct (Qsum_within lo hi qs Hall) as [Hlo Hhi].
  assert (Hpos : (0 < inject_Z (Z.of_nat (List.length qs)))%Q).
  { destruct qs; [contradiction|]. unfold Qlt. cbn [List.length].
    simpl. lia. }
  unfold mean. split.
  - apply Qle_shift_div_l; assumption.
  - apply Qle_shift_div_r; assumption.
Qed.

Lemma rated_within_numbers (lo hi : Q) (rs : list Review) :
  rated_within lo hi rs ->
  exists qs, map rating rs = numbers qs /\ within lo hi qs.
Proof.
  intros Hall. induction Hall as [|r rs [q [Hr Hq]] Hall [qs [Hmap Hqs]]].
  - exists []. split; [reflexivity|constructor].
  - exists (q :: qs). split.
    + cbn [map numbers]. rewrite Hr. fold (numbers qs). rewrite Hmap.
      reflexivity.
    + constructor; assumption.
Qed.

(** The rating computed from ratings between two bounds lies between the
    bounds. *)
Lemma computed_rating_within (lo hi : Q) (rs : list Review) :
  rs <> [] -> rated_within lo hi rs ->
  exists m, computed_rating rs = Fin m /\ (lo <= m /\ m <= hi)%Q.
Proof.
  intros Hne Hall.
  destruct (rated_within_numbers lo hi rs Hall) as [qs [Hmap Hqs]].
  destruct (accumulate_mean rs qs Hmap Hne) as [m [Hm Hmean]].
  exists m. rewrite (computed_rating_nonempty rs Hne). split; [exact Hm|].
  rewrite Hmean. apply mean_within; [|exact Hqs].
  intros Hnil. subst qs. destruct rs; [contradiction|discriminate Hmap].
Qed.

Lemma ratings_valid_Fin (m : Q) :
  (0 <= m /\ m <= 5)%Q -> ratings_valid (Fin m) = true.
Proof.
  intros [Hlo Hhi]. unfold ratings_valid. apply andb_true_iff.
  split; apply num_leb_Fin; assumption.
Qed.

(** X3.  [createProductReview] saves without validation, and yet keeps the
    ratings within the bounds that the validation of [deleteReview] checks:
    on a product whose reviews hold numbers between 0 and 5, a request whose
    rating is such a number (or a string that reads as one) leaves such
    reviews, and stores a rating between 0 and 5. *)
Theorem createProductReview_rating_within
    (q : Q) (req : ReviewRequest) (product : Product) :
  rated_within 0 5 (reviews product) ->
  rating_is (body_rating req) q ->
  (0 <= q /\ q <= 5)%Q ->
  exists product' m,
    createProductReview req (Some product) = Done product'
    /\ rated_within 0 5 (reviews product')
    /\ ratings product' = Fin m
    /\ (0 <= m /\ m <= 5)%Q
    /\ ratings_valid (ratings product') = true.
Proof.
  intros Hall Hq Hbounds. rewrite createProductReview_paths.
  destruct (List.find (same_user (req_user_id req)) (reviews product))
    as [hit|] eqn:Hfind; cbv zeta.
  - set (rs := map (fun rev => if same_user (req_user_id req) rev
                               then revised req rev else rev)
                   (reviews product)).
    assert (Hrs : rated_within 0 5 rs).
    { unfold rs, rated_within. apply Forall_map.
      eapply Forall_impl; [|exact Hall]. intros rev Hrev.
      destruct (same_user (req_user_id req) rev); [|exact Hrev].
      exists q. split; [exact (revised_rating_is req rev q Hq)|exact Hbounds]. }
    assert (Hne : rs <> []).
    { apply find_some in Hfind. destruct Hfind as [Hin _]. unfold rs.
      destruct (reviews product); [destruct Hin|discriminate]. }
    destruct (computed_rating_within 0 5 rs Hne Hrs) as [m [Hm Hmb]].
    rewrite (computed_rating_nonempty rs Hne) in Hm.
    eexists _, m. split; [reflexivity|].
    rewrite Hm, assign_ratings_Fin.
    cbn [reviews ratings set_ratings set_reviews].
    split; [exact Hrs|]. split; [reflexivity|]. split; [exact Hmb|].
    apply ratings_valid_Fin. exact Hmb.
  - set (rs := reviews product ++ [appended req]).
    assert (Hrs : rated_within 0 5 rs).
    { unfold rs, rated_within. apply Forall_app. split; [exact Hall|].
      constructor; [|constructor].
      exists q. split; [exact (appended_rating_is req q Hq)|exact Hbounds]. }
    assert (Hne : rs <> []).
    { unfold rs. destruct (reviews product); discriminate. }
    destruct (computed_rating_within 0 5 rs Hne Hrs) as [m [Hm Hmb]].
    rewrite (computed_rating_nonempty rs Hne) in Hm.
    eexists _, m. split; [reflexivity|].
    rewrite Hm, assign_ratings_Fin.
    cbn [reviews ratings set_ratings set_reviews set_numOfReviews].
    split; [exact Hrs|]. split; [reflexivity|]. split; [exact Hmb|].
    apply ratings_valid_Fin. exact Hmb.
Qed.

(** X4.  On reviews that hold numbers between 0 and 5, [deleteReview] with both
    identifiers completes: the update passes the validation, whichever review
    is removed, and leaves reviews of the same kind. *)
Theorem deleteReview_completes
    (product : Product) (q_productId q_id : QVal) :
  rated_within 0 5 (reviews product) ->
  Qs.toString q_productId <> EmptyString ->
  Qs.toString q_id <> EmptyString ->
  exists product',
    deleteReview (Some q_productId) (Some q_id) (Some product) = Done product'
    /\ rated_within 0 5 (reviews product')
    /\ ratings_valid (ratings product') = true.
Proof.
  intros Hall Hpid Hrid. unfold deleteReview. cbn [option_map].
  apply String.eqb_neq in Hpid, Hrid. rewrite Hpid, Hrid. cbn [orb].
  rewrite deleteReview_rating. unfold findByIdAndUpdate.
  set (rs := List.filter
               (fun rev => negb (String.eqb (oid_toString (_id rev))
                                            (Qs.toString q_id)))
               (reviews product)).
  assert (Hrs : rated_within 0 5 rs).
  { unfold rs, rated_within. apply Forall_forall. intros rev Hin.
    apply filter_In in Hin. destruct Hin as [Hin _].
    exact (proj1 (Forall_forall _ _) Hall rev Hin). }
  assert (Hvalid : ratings_valid (computed_rating rs) = true).
  { destruct rs as [|r rs'] eqn:Hlist; [reflexivity|].
    destruct (computed_rating_within 0 5 (r :: rs')) as [m [Hm Hmb]];
      [discriminate|exact Hrs|].
    rewrite Hm. apply ratings_valid_Fin. exact Hmb. }
  rewrite Hvalid. eexists. split; [reflexivity|].
  cbn [reviews ratings set_ratings set_reviews set_numOfReviews].
  split; [exact Hrs|exact Hvalid].
Qed.

End ReviewBounds.

Section ReviewBoundsInstances.

Import JS Qs ProductController Notions Samples Wellformed.

Lemma rated_within_widget_5_3 : rated_within 0 5 (reviews widget_5_3).
Proof.
  repeat constructor.
  - exists 5%Q. repeat split; discriminate.
  - exists 3%Q. repeat split; discriminate.
Defined.

Lemma createProductReview_rating_within_witness :
  rated_within 0 5 (reviews widget_5_3)
  /\ rating_is (VNum (Fin 4)) 4
  /\ (0 <= 4 /\ 4 <= 5)%Q
  /\ exists product' m,
       createProductReview (request carol "Carol" (VNum (Fin 4)) "fine" (oid 103))
                           (Some widget_5_3) = Done product'
       /\ rated_within 0 5 (reviews product')
       /\ ratings product' = Fin m
       /\ (0 <= m /\ m <= 5)%Q
       /\ ratings_valid (ratings product') = true.
Proof.
  assert (Hb : (0 <= 4 /\ 4 <= 5)%Q) by (split; discriminate).
  assert (Hr : rating_is (VNum (Fin 4)) 4) by (left; reflexivity).
  split; [exact rated_within_widget_5_3|]. split; [exact Hr|].
  split; [exact Hb|].
  exact (createProductReview_rating_within 4
           (request carol "Carol" (VNum (Fin 4)) "fine" (oid 103))
           widget_5_3 rated_within_widget_5_3 Hr Hb).
Defined.

Lemma deleteReview_completes_witness :
  rated_within 0 5 (reviews widget_4)
  /\ exists product',
       deleteReview (id_param (product_id widget_4)) (id_param (oid 101))
                    (Some widget_4) = Done product'
       /\ rated_within 0 5 (reviews product')
       /\ ratings_valid (ratings product') = true.
Proof.
  assert (H : rated_within 0 5 (reviews widget_4)).
  { repeat constructor. exists 4%Q. repeat split; discriminate. }
  split; [exact H|].
  apply (deleteReview_completes widget_4
           (QStr (oid_toString (product_id widget_4)))
           (QStr (oid_toString (oid 101))) H).
  - vm_compute. discriminate.
  - vm_compute. discriminate.
Defined.

End ReviewBoundsInstances.

Section ReviewRemovalMore.

Import JS Qs ProductController Notions Samples Wellformed.

Local Open Scope list_scope.

(** X5.  [deleteReview] answers 400 when an identifier is missing or empty,
    whatever the lookup of the product gives; with both identifiers it
    answers 404 exactly when there is no such product. *)
Theorem deleteReview_missing_identifier
    (q_productId q_id : option QVal) (found : option Product) :
  (missing q_productId \/ missing q_id ->
   deleteReview q_productId q_id found
   = Failed 400 "Product ID and Review ID are required")
  /\ (~ missing q_productId -> ~ missing q_id ->
      (found = None <->
       deleteReview q_productId q_id found = Failed 404 "Product not found")).
Proof.
  unfold deleteReview, missing. split.
  - intros [Hm|Hm].
    + destruct q_productId as [p|]; cbn [option_map]; [|reflexivity].
      rewrite Hm. destruct (option_map Qs.toString q_id); reflexivity.
    + destruct q_id as [r|]; cbn [option_map].
      * rewrite Hm. destruct (option_map Qs.toString q_productId);
          [rewrite orb_true_r|]; reflexivity.
      * destruct (option_map Qs.toString q_productId); reflexivity.
  - intros Hp Hr.
    destruct q_productId as [p|]; [|exfalso; apply Hp; exact I].
    destruct q_id as [r|]; [|exfalso; apply Hr; exact I].
    cbn [option_map]. apply String.eqb_neq in Hp, Hr. rewrite Hp, Hr.
    cbn [orb]. split.
    + intros Hnone. rewrite Hnone. reflexivity.
    + destruct found as [product|]; [|reflexivity].
      intros H. rewrite deleteReview_rating in H.
      unfold findByIdAndUpdate in H.
      set (rs := List.filter
                   (fun rev => negb (String.eqb (oid_toString (_id rev))
                                                (Qs.toString r)))
                   (reviews product)) in H.
      destruct (ratings_valid (computed_rating rs)); discriminate H.
Qed.

Lemma deleteReview_missing_identifier_witness :
  missing (Some (QArr []))
  /\ deleteReview (Some (QArr [])) (id_param (oid 101)) (Some widget_4)
     = Failed 400 "Product ID and Review ID are required".
Proof.
  split; [reflexivity|].
  apply (proj1 (deleteReview_missing_identifier
                  (Some (QArr [])) (id_param (oid 101)) (Some widget_4))).
  left. reflexivity.
Defined.

Lemma filter_keys_apart (rid : string) (rs : list Review) :
  ~ In rid (map review_key rs) ->
  List.filter (fun rev => negb (String.eqb (oid_toString (_id rev)) rid)) rs
  = rs.
Proof.
  intros Hnot. apply filter_unknown_review. intros rev Hin Heq.
  apply Hnot. apply in_map_iff. exists rev. split; [exact Heq|exact Hin].
Qed.

(** X6.  With distinct review identifiers, a removal that completes takes out
    the review of the given identifier and no other: the reviews before and
    after it stay, in their order, and the count goes down by one. *)
Theorem deleteReview_removes_one
    (product product' : Product) (q_productId : option QVal)
    (before after : list Review) (rev : Review) :
  distinct_ids (reviews product) ->
  reviews product = before ++ rev :: after ->
  deleteReview q_productId (id_param (_id rev)) (Some product) = Done product' ->
  reviews product' = before ++ after
  /\ S (numOfReviews product') = List.length (reviews product).
Proof.
  intros Hdistinct Hsplit Hdone.
  destruct (deleteReview_done _ _ _ _ Hdone) as [rid [Hrid [_ Hp]]].
  unfold id_param in Hrid. cbn [option_map Qs.toString] in Hrid.
  apply (f_equal (fun o => match o with Some x => x | None => EmptyString end))
    in Hrid. cbv beta iota in Hrid. subst rid.
  unfold distinct_ids in Hdistinct. rewrite Hsplit in Hdistinct, Hp.
  rewrite map_app in Hdistinct. cbn [map] in Hdistinct.
  pose proof (NoDup_remove_2 _ _ _ Hdistinct) as Hnot.
  assert (Hb : ~ In (review_key rev) (map review_key before)).
  { intros H. apply Hnot. apply in_or_app. left. exact H. }
  assert (Ha : ~ In (review_key rev) (map review_key after)).
  { intros H. apply Hnot. apply in_or_app. right. exact H. }
  assert (Hfilter :
    List.filter (fun r => negb (String.eqb (oid_toString (_id r))
                                           (oid_toString (_id rev))))
                (before ++ rev :: after) = before ++ after).
  { rewrite filter_app. cbn [List.filter]. rewrite String.eqb_refl.
    cbn [negb].
    rewrite (filter_keys_apart (oid_toString (_id rev)) before Hb).
    rewrite (filter_keys_apart (oid_toString (_id rev)) after Ha).
    reflexivity. }
  rewrite Hfilter in Hp. subst product'.
  cbn [reviews numOfReviews set_ratings set_reviews set_numOfReviews].
  split; [reflexivity|]. rewrite Hsplit, !length_app. cbn [List.length]. lia.
Qed.

Lemma deleteReview_removes_one_witness :
  distinct_ids (reviews widget_5_3)
  /\ exists product',
       deleteReview (id_param (product_id widget_5_3)) (id_param (oid 101))
                    (Some widget_5_3) = Done product'
       /\ reviews product'
          = [review_by (oid 102) bob "Bob" (VNum (Fin 3)) "fair"]
       /\ S (numOfReviews product') = List.length (reviews widget_5_3).
Proof.
  assert (Hd : distinct_ids (reviews widget_5_3)).
  { unfold distinct_ids.
    replace (map review_key (reviews widget_5_3))
      with ["000000000000000000000065"%string; "000000000000000000000066"%string]
      by (vm_compute; reflexivity).
    constructor; [intros [H|[]]; discriminate H|].
    constructor; [intros []|constructor]. }
  split; [exact Hd|].
  eexists. split; [vm_compute; reflexivity|].
  apply (deleteReview_removes_one widget_5_3 _
           (id_param (product_id widget_5_3)) []
           [review_by (oid 102) bob "Bob" (VNum (Fin 3)) "fair"]
           (review_by (oid 101) alice "Alice" (VNum (Fin 5)) "great") Hd).
  - reflexivity.
  - vm_compute. reflexivity.
Defined.

End ReviewRemovalMore.

Section ReviewRoundTrip.

Import JS Qs ProductController Notions Samples Wellformed.

Local Open Scope list_scope.

Lemma filter_again {A : Type} (keep : A -> bool) (l : list A) :
  List.filter keep (List.filter keep l) = List.filter keep l.
Proof.
  induction l as [|x l IH]; [reflexivity|]. cbn [List.filter].
  destruct (keep x) eqn:Hx; [|exact IH].
  cbn [List.filter]. rewrite Hx, IH. reflexivity.
Qed.

(** X7.  A removal that has completed, asked again, completes and changes
    nothing. *)
Theorem deleteReview_again
    (q_productId q_id : option QVal) (product product' : Product) :
  deleteReview q_productId q_id (Some product) = Done product' ->
  deleteReview q_productId q_id (Some product') = Done product'.
Proof.
  intros Hdone. unfold deleteReview in Hdone |- *.
  destruct (option_map Qs.toString q_productId) as [pid|];
    [|discriminate Hdone].
  destruct (option_map Qs.toString q_id) as [rid|]; [|discriminate Hdone].
  destruct (String.eqb pid EmptyString || String.eqb rid EmptyString);
    [discriminate Hdone|].
  rewrite deleteReview_rating in Hdone. rewrite deleteReview_rating.
  unfold findByIdAndUpdate in Hdone |- *.
  set (keep := fun rev => negb (String.eqb (oid_toString (_id rev)) rid))
    in Hdone |- *.
  destruct (ratings_valid (computed_rating (List.filter keep (reviews product))))
    eqn:Hvalid; [|discriminate Hdone].
  apply Done_inj in Hdone. subst product'.
  cbn [reviews set_ratings set_reviews set_numOfReviews].
  rewrite filter_again, Hvalid. reflexivity.
Qed.

Lemma deleteReview_again_witness :
  deleteReview (id_param (product_id widget_5_3)) (id_param (oid 101))
               (Some widget_5_3)
  = Done (with_reviews widget
            [review_by (oid 102) bob "Bob" (VNum (Fin 3)) "fair"] (Fin 3))
  /\ deleteReview (id_param (product_id widget_5_3)) (id_param (oid 101))
       (Some (with_reviews widget
                [review_by (oid 102) bob "Bob" (VNum (Fin 3)) "fair"] (Fin 3)))
     = Done (with_reviews widget
               [review_by (oid 102) bob "Bob" (VNum (Fin 3)) "fair"] (Fin 3)).
Proof.
  assert (H : deleteReview (id_param (product_id widget_5_3))
                (id_param (oid 101)) (Some widget_5_3)
              = Done (with_reviews widget
                        [review_by (oid 102) bob "Bob" (VNum (Fin 3)) "fair"]
                        (Fin 3)))
    by (vm_compute; reflexivity).
  split; [exact H|].
  exact (deleteReview_again _ _ _ _ H).
Defined.

(** X8.  A first review and its removal cancel: on a product whose stored count
    and rating agree with its reviews and pass the validation, the review of
    a user who had none, removed by the identifier it was given, leaves the
    product as it was. *)
Theorem review_append_then_delete
    (req : ReviewRequest) (product : Product) :
  aggregates_agree product ->
  ratings_valid (ratings product) = true ->
  List.find (same_user (req_user_id req)) (reviews product) = None ->
  unknown_review (oid_toString (fresh_id req)) (reviews product) ->
  exists product',
    createProductReview req (Some product) = Done product'
    /\ reviews product' = reviews product ++ [appended req]
    /\ deleteReview (id_param (product_id product')) (id_param (fresh_id req))
                    (Some product') = Done product.
Proof.
  intros [Hcount Hrating] Hvalid Hfind Hunknown.
  rewrite createProductReview_paths, Hfind. cbv zeta.
  set (rs := reviews product ++ [appended req]).
  set (saved := assign_ratings
                  (set_numOfReviews (set_reviews product rs) (List.length rs))
                  (js_div (accumulate rs) (VNum (of_nat (List.length rs))))).
  assert (Hreviews : reviews saved = rs)
    by exact (proj1 (assign_ratings_fields _ _)).
  assert (Hsaved : forall rs' r n,
             set_numOfReviews (set_ratings (set_reviews saved rs') r) n
             = set_numOfReviews (set_ratings (set_reviews product rs') r) n).
  { intros rs' r n. unfold saved, assign_ratings.
    destruct (assign _ _); destruct product; reflexivity. }
  exists saved. split; [reflexivity|].
  split; [exact Hreviews|].
  unfold deleteReview, id_param. cbn [option_map Qs.toString].
  rewrite !oid_toString_not_empty. cbn [orb].
  rewrite Hreviews. unfold rs.
  rewrite deleteReview_rating.
  assert (Hfilter :
    List.filter (fun rev => negb (String.eqb (oid_toString (_id rev))
                                             (oid_toString (fresh_id req))))
                (reviews product ++ [appended req]) = reviews product).
  { rewrite filter_app.
    rewrite (filter_unknown_review (oid_toString (fresh_id req))
               (reviews product) Hunknown).
    cbn [List.filter appended _id]. rewrite String.eqb_refl. cbn [negb].
    apply app_nil_r. }
  rewrite Hfilter. unfold findByIdAndUpdate.
  rewrite <- Hrating, Hvalid, <- Hcount, Hsaved.
  apply f_equal. apply set_fields_same.
Qed.

Lemma review_append_then_delete_witness :
  aggregates_agree widget_4
  /\ unknown_review (oid_toString (oid 102)) (reviews widget_4)
  /\ exists product',
       createProductReview (request bob "Bob" (VNum (Fin 2)) "meh" (oid 102))
                           (Some widget_4) = Done product'
       /\ reviews product'
          = (reviews widget_4
             ++ [appended (request bob "Bob" (VNum (Fin 2)) "meh" (oid 102))])%list
       /\ deleteReview (id_param (product_id product')) (id_param (oid 102))
                       (Some product') = Done widget_4.
Proof.
  assert (Ha : aggregates_agree widget_4) by (split; vm_compute; reflexivity).
  assert (Hu : unknown_review (oid_toString (oid 102)) (reviews widget_4)).
  { intros rev [H|[]]. subst rev. vm_compute. discriminate. }
  split; [exact Ha|]. split; [exact Hu|].
  apply (review_append_then_delete
           (request bob "Bob" (VNum (Fin 2)) "meh" (oid 102)) widget_4 Ha).
  - vm_compute. reflexivity.
  - vm_compute. reflexivity.
  - exact Hu.
Defined.

End ReviewRoundTrip.

(** * Further properties of the product listing *)

Section Pages.

Import JS Qs ProductController Store ApiFeatures Notions Samples Wellformed.

Local Open Scope list_scope.

Lemma Qred_inject_Z (z : Z) : Qred (inject_Z z) = inject_Z z.
Proof.
  apply Qcanon.Qred_identity. cbn [inject_Z Qnum Qden]. apply Z.gcd_1_r.
Qed.

(** A rational equal to a natural number counts that many records. *)
Lemma to_count_integer (q : Q) (k : nat) :
  (q == inject_Z (Z.of_nat k))%Q -> to_count (Fin q) = Some k.
Proof.
  intros Hq. unfold to_count.
  rewrite (Qred_complete _ _ Hq), Qred_inject_Z. cbn [inject_Z Qnum Qden].
  replace (0 <=? Z.of_nat k) with true by (symmetry; apply Z.leb_le; lia).
  cbn [Z.eqb Pos.eqb andb]. rewrite Nat2Z.id. reflexivity.
Qed.

(** The skip of page [page] with [size] records a page. *)
Lemma skip_of_page_number (this : ApiFeatures) (size page : nat) :
  (0 < page)%nat ->
  toNumber (get "page" (queryStr this)) = of_nat page ->
  to_count (skip_of (of_nat size) this) = Some (size * (page - 1))%nat.
Proof.
  intros Hpage Hnum. unfold skip_of, currentPage. rewrite Hnum.
  unfold of_nat, of_Z. cbn [num_truthy].
  rewrite (Qeq_bool_inject_Z_pos page Hpage).
  cbn [negb num_sub num_neg num_add num_mul].
  apply to_count_integer. rewrite !Qred_correct.
  rewrite Nat2Z.inj_mul, Nat2Z.inj_sub by lia.
  rewrite inject_Z_mult. unfold Zminus. rewrite inject_Z_plus, inject_Z_opp.
  reflexivity.
Qed.

(** X9.  Page [page] of [size] records holds the records at the positions
    [size * (page - 1)], ..., [size * page - 1] of the records that meet the
    conditions, in their order. *)
Theorem pagination_page_positions
    (this : ApiFeatures) (size page : nat)
    (collection matched : list Product) :
  (0 < size)%nat -> (0 < page)%nat ->
  toNumber (get "page" (queryStr this)) = of_nat page ->
  matching (conditions (query this)) collection = Some matched ->
  exists records,
    exec (query (pagination (of_nat size) this)) collection = Some records
    /\ records = firstn size (skipn (size * (page - 1)) matched)
    /\ (forall i, (i < size)%nat ->
                  nth_error records i
                  = nth_error matched (size * (page - 1) + i))
    /\ (forall i, (size <= i)%nat -> nth_error records i = None).
Proof.
  intros Hsize Hpage Hnum Hmatched.
  exists (firstn size (skipn (size * (page - 1)) matched)).
  split; [|split; [reflexivity|split]].
  - unfold exec. cbn [pagination query skip limit conditions].
    rewrite Hmatched. unfold window. cbn [skip_option limit_option skip limit].
    rewrite (skip_of_page_number this size page Hpage Hnum).
    cbn [option_map].
    change (of_nat size) with (Fin (inject_Z (Z.of_nat size))).
    rewrite (to_count_integer (inject_Z (Z.of_nat size)) size)
      by reflexivity.
    cbn [option_map]. destruct size; [lia|]. reflexivity.
  - intros i Hi. rewrite nth_error_firstn.
    replace (i <? size)%nat with true by (symmetry; apply Nat.ltb_lt; exact Hi).
    apply nth_error_skipn.
  - intros i Hi. rewrite nth_error_firstn.
    replace (i <? size)%nat with false
      by (symmetry; apply Nat.ltb_ge; exact Hi).
    reflexivity.
Qed.

Lemma pagination_page_positions_witness :
  toNumber (get "page" [("page", QStr "2")]) = of_nat 2
  /\ exists records,
       exec (query (pagination (of_nat 1) (listing [("page", QStr "2")])))
            [widget; gadget] = Some records
       /\ records = firstn 1 (skipn (1 * (2 - 1)) [widget; gadget])
       /\ (forall i, (i < 1)%nat ->
                     nth_error records i
                     = nth_error [widget; gadget] (1 * (2 - 1) + i))
       /\ (forall i, (1 <= i)%nat -> nth_error records i = None).
Proof.
  split; [reflexivity|].
  apply (pagination_page_positions (listing [("page", QStr "2")]) 1 2
           [widget; gadget] [widget; gadget]).
  - lia.
  - lia.
  - reflexivity.
  - reflexivity.
Defined.

End Pages.

Section Listing.

Import JS Qs ProductController Store ApiFeatures ProductListing.
Import Notions Samples Wellformed.

Local Open Scope list_scope.

Lemma matching_incl (conds : QVal) (collection matched : list Product) :
  matching conds collection = Some matched ->
  incl matched collection
  /\ (List.length matched <= List.length collection)%nat.
Proof.
  revert matched. induction collection as [|p collection IH]; intros matched;
    cbn [matching].
  - intros H. apply (f_equal (fun o => match o with Some l => l | None => [] end))
      in H. cbv beta iota in H. subst matched. split; [apply incl_refl|lia].
  - destruct (matches conds p) as [b|]; [|discriminate].
    destruct (matching conds collection) as [l|]; [|discriminate].
    intros H. destruct (IH l eq_refl) as [Hincl Hlen].
    assert (Hm : matched = if b then p :: l else l) by congruence.
    subst matched. destruct b; cbn [List.length]; split; try lia.
    + intros x [Hx|Hx]; [left; exact Hx|right; apply Hincl; exact Hx].
    + intros x Hx. right. apply Hincl. exact Hx.
Qed.

Lemma skipn_incl {A : Type} (k : nat) (l : list A) : incl (skipn k l) l.
Proof.
  intros x Hx. rewrite <- (firstn_skipn k l). apply in_or_app. right. exact Hx.
Qed.

Lemma firstn_incl {A : Type} (k : nat) (l : list A) : incl (firstn k l) l.
Proof.
  intros x Hx. rewrite <- (firstn_skipn k l). apply in_or_app. left. exact Hx.
Qed.

(** The window of a query is a part of the records it is cut from. *)
Lemma window_incl (q : Query) (l w : list Product) :
  window q l = Some w ->
  incl w l /\ (List.length w <= List.length l)%nat.
Proof.
  unfold window.
  destruct (match skip_option q with
            | Some s => option_map (fun k => skipn k l) (to_count s)
            | None => Some l
            end) as [l'|] eqn:Hskip; [|discriminate].
  assert (Hl' : incl l' l /\ (List.length l' <= List.length l)%nat).
  { destruct (skip_option q) as [s|].
    - destruct (to_count s) as [k|]; [|discriminate Hskip].
      cbn [option_map] in Hskip. assert (Heq : l' = skipn k l) by congruence.
      subst l'. split; [apply skipn_incl|]. rewrite length_skipn. lia.
    - assert (Heq : l' = l) by congruence. subst l'.
      split; [apply incl_refl|lia]. }
  destruct Hl' as [Hincl Hlen].
  destruct (limit_option q) as [n|].
  - destruct (to_count n) as [k|]; [|discriminate].
    cbn [option_map]. intros H.
    assert (Heq : w = if (k =? 0)%nat then l' else firstn k l') by congruence.
    subst w. destruct (k =? 0)%nat.
    + split; assumption.
    + split.
      * intros x Hx. apply Hincl. apply (firstn_incl k l'). exact Hx.
      * rewrite length_firstn. lia.
  - intros H. assert (Heq : w = l') by congruence. subst w. split; assumption.
Qed.

(** The window of a query with a limit of [n] records, [n] positive, has at
    most [n] records. *)
Lemma window_limit (q : Query) (l w : list Product) (n : nat) :
  (0 < n)%nat -> limit_option q = Some (of_nat n) ->
  window q l = Some w -> (List.length w <= n)%nat.
Proof.
  intros Hn Hlimit. unfold window. rewrite Hlimit.
  change (of_nat n) with (Fin (inject_Z (Z.of_nat n))).
  rewrite (to_count_integer (inject_Z (Z.of_nat n)) n) by reflexivity.
  destruct (match skip_option q with
            | Some s => option_map (fun k => skipn k l) (to_count s)
            | None => Some l
            end) as [l'|]; [|discriminate].
  cbn [option_map]. destruct n; [lia|]. cbn [Nat.eqb].
  intros H. assert (Heq : w = firstn (S n) l') by congruence. subst w.
  rewrite length_firstn. lia.
Qed.

(** [search()] and [filter()] on [Product.find()]. *)
Lemma listing_filter (q : QueryString) :
  filter (search {| query := find_all; queryStr := q |})
  = Some {| query := {| conditions := listing_conditions q;
                        limit_option := None; skip_option := None |};
            queryStr := q |}.
Proof.
  unfold listing_conditions. rewrite filter_condition. reflexivity.
Qed.

(** The steps of [getAllProducts]. *)
Lemma getAllProducts_steps (q : QueryString) (collection : list Product)
    (r : Response) :
  getAllProducts q collection = Some r ->
  exists matched,
    matching (listing_conditions q) collection = Some matched
    /\ window {| conditions := listing_conditions q;
                 limit_option := Some (pageSize q);
                 skip_option :=
                   Some (skip_of (pageSize q)
                           {| query := find_all; queryStr := q |}) |}
              matched = Some (products r)
    /\ productsCount r = List.length collection
    /\ resultPerPage r = pageSize q
    /\ filteredProductsCount r = List.length matched.
Proof.
  unfold getAllProducts. rewrite listing_filter. cbv zeta.
  unfold exec. cbn [query pagination skip limit conditions].
  destruct (matching (listing_conditions q) collection) as [matched|];
    [|discriminate].
  unfold window at 1. cbn [skip_option limit_option].
  intros H. exists matched. split; [reflexivity|].
  change (skip_of (pageSize q)
            {| query := {| conditions := listing_conditions q;
                           limit_option := None; skip_option := None |};
               queryStr := q |})
    with (skip_of (pageSize q) {| query := find_all; queryStr := q |}) in H.
  unfold skip, limit in H. cbn [conditions limit_option skip_option] in H.
  destruct (window {| conditions := listing_conditions q;
                      limit_option := Some (pageSize q);
                      skip_option :=
                        Some (skip_of (pageSize q)
                                {| query := find_all; queryStr := q |}) |}
                   matched) as [page|] eqn:Hw; [|discriminate H].
  assert (Hr : r = {| products := page;
                      productsCount := List.length collection;
                      resultPerPage := pageSize q;
                      filteredProductsCount := List.length matched |})
    by congruence.
  subst r. cbn [products productsCount resultPerPage filteredProductsCount].
  repeat split.
Qed.

(** X10.  What the listing counts: [productsCount] is the size of the
    collection, [filteredProductsCount] the number of records that meet the
    filter of the query (the entries of [filter()] merged over the condition
    of the keyword), whatever the page; the products of the page are among
    those records, so that the page is no longer than the filtered count,
    itself at most the total count. *)
Theorem getAllProducts_counts
    (q : QueryString) (collection : list Product) (r : Response) :
  getAllProducts q collection = Some r ->
  productsCount r = List.length collection
  /\ exists matched,
       matching (listing_conditions q) collection = Some matched
       /\ filteredProductsCount r = List.length matched
       /\ incl (products r) matched
       /\ incl matched collection
       /\ (List.length (products r) <= filteredProductsCount r)%nat
       /\ (filteredProductsCount r <= productsCount r)%nat.
Proof.
  intros H.
  destruct (getAllProducts_steps q collection r H)
    as [matched [Hm [Hw [Hcount [_ Hfiltered]]]]].
  destruct (matching_incl _ _ _ Hm) as [Hincl Hlen].
  destruct (window_incl _ _ _ Hw) as [Hincl' Hlen'].
  split; [exact Hcount|]. exists matched.
  rewrite Hfiltered, Hcount. repeat split; assumption.
Qed.

Lemma getAllProducts_counts_witness :
  getAllProducts [("keyword", QStr "widget")] [widget; gadget]
  = Some {| products := [widget]; productsCount := 2;
            resultPerPage := Fin 8; filteredProductsCount := 1 |}
  /\ exists matched,
       matching (listing_conditions [("keyword", QStr "widget")])
                [widget; gadget] = Some matched
       /\ 1%nat = List.length matched
       /\ incl [widget] matched
       /\ incl matched [widget; gadget]
       /\ (List.length [widget] <= 1)%nat
       /\ (1 <= 2)%nat.
Proof.
  assert (H : getAllProducts [("keyword", QStr "widget")] [widget; gadget]
              = Some {| products := [widget]; productsCount := 2;
                        resultPerPage := Fin 8; filteredProductsCount := 1 |})
    by (vm_compute; reflexivity).
  split; [exact H|].
  exact (proj2 (getAllProducts_counts _ _ _ H)).
Defined.

(** A [name] parameter beside a keyword: [filter()] merges its entry over
    the condition that [search()] has put on the name, and replaces it. *)
Example listing_name_replaces_keyword :
  listing_conditions [("keyword", QStr "widget"); ("name", QStr "red gadget")]
  = QObj [("name", QStr "red gadget")]
  /\ getAllProducts [("keyword", QStr "widget"); ("name", QStr "red gadget")]
                    [widget; gadget]
     = Some {| products := [gadget]; productsCount := 2;
               resultPerPage := Fin 8; filteredProductsCount := 1 |}.
Proof. split; vm_compute; reflexivity. Qed.

End Listing.

Section ListingPaging.

Import JS Qs ProductController Store ApiFeatures ProductListing.
Import Notions Samples Wellformed.

Local Open Scope list_scope.

Lemma pageSize_default (q : QueryString) :
  get "limit" q = None
  \/ toNumber (get "limit" q) = NaN
  \/ (exists z, toNumber (get "limit" q) = Fin z /\ (z == 0)%Q) ->
  pageSize q = Fin 8.
Proof.
  unfold pageSize. intros [Hnone|[Hnan|[z [Hz Hzero]]]].
  - rewrite Hnone. reflexivity.
  - rewrite Hnan. reflexivity.
  - rewrite Hz. cbn [num_truthy]. apply Qeq_bool_iff in Hzero.
    rewrite Hzero. reflexivity.
Qed.

(** X11.  The size of a page: with a [limit] that converts to the positive
    integer [n] the listing returns at most [n] products, and without a
    [limit], or with one that is not a number or is zero, at most 8. *)
Theorem getAllProducts_page_size
    (q : QueryString) (collection : list Product) (r : Response) :
  getAllProducts q collection = Some r ->
  (forall n, (0 < n)%nat -> toNumber (get "limit" q) = of_nat n ->
             resultPerPage r = of_nat n
             /\ (List.length (products r) <= n)%nat)
  /\ (get "limit" q = None
      \/ toNumber (get "limit" q) = NaN
      \/ (exists z, toNumber (get "limit" q) = Fin z /\ (z == 0)%Q) ->
      resultPerPage r = Fin 8 /\ (List.length (products r) <= 8)%nat).
Proof.
  intros H.
  destruct (getAllProducts_steps q collection r H)
    as [matched [_ [Hw [_ [Hsize _]]]]].
  split.
  - intros n Hn Hlimit.
    assert (Hp : pageSize q = of_nat n).
    { unfold pageSize. rewrite Hlimit. unfold of_nat, of_Z.
      cbn [num_truthy]. rewrite (Qeq_bool_inject_Z_pos n Hn). reflexivity. }
    split; [rewrite Hsize; exact Hp|].
    apply (window_limit _ matched (products r) n Hn) in Hw; [exact Hw|].
    cbn [limit_option]. rewrite Hp. reflexivity.
  - intros Hdefault. pose proof (pageSize_default q Hdefault) as Hp.
    split; [rewrite Hsize; exact Hp|].
    apply (window_limit _ matched (products r) 8) in Hw; [exact Hw|lia|].
    cbn [limit_option]. rewrite Hp. reflexivity.
Qed.

Lemma getAllProducts_page_size_witness :
  getAllProducts [("limit", QStr "1")] [widget; gadget]
  = Some {| products := [widget]; productsCount := 2;
            resultPerPage := Fin 1; filteredProductsCount := 2 |}
  /\ toNumber (get "limit" [("limit", QStr "1")]) = of_nat 1
  /\ Fin 1 = of_nat 1
  /\ (List.length [widget] <= 1)%nat.
Proof.
  assert (H : getAllProducts [("limit", QStr "1")] [widget; gadget]
              = Some {| products := [widget]; productsCount := 2;
                        resultPerPage := Fin 1; filteredProductsCount := 2 |})
    by (vm_compute; reflexivity).
  split; [exact H|]. split; [reflexivity|].
  apply (proj1 (getAllProducts_page_size _ _ _ H) 1%nat).
  - lia.
  - reflexivity.
Defined.

Lemma get_delete_other (k k' : string) (q : QueryString) :
  k <> k' -> get k (delete k' q) = get k q.
Proof.
  intros Hne. induction q as [|[k0 v] q IH]; [reflexivity|].
  unfold delete. cbn [List.filter fst]. fold (delete k' q).
  destruct (String.eqb_spec k0 k') as [Heq|Hne'].
  - cbn [negb get]. subst k0.
    replace (String.eqb k' k) with false
      by (symmetry; apply String.eqb_neq; congruence).
    exact IH.
  - cbn [negb get]. rewrite IH. reflexivity.
Qed.

Lemma filter_both {A : Type} (f g : A -> bool) (l : list A) :
  List.filter f (List.filter g l) = List.filter (fun x => g x && f x) l.
Proof.
  induction l as [|x l IH]; [reflexivity|]. cbn [List.filter].
  destruct (g x); cbn [List.filter andb]; [|exact IH].
  destruct (f x); rewrite IH; reflexivity.
Qed.

(** The conditions of the listing do not depend on [page] and [limit]. *)
Lemma listing_conditions_without_paging (q : QueryString) :
  listing_conditions q = listing_conditions (without_paging q).
Proof.
  assert (Hconds : forall p,
    listing_conditions p
    = conditions
        (find (rebuilt
                 (rewritten
                    (QObj (delete "limit"
                             (delete "page" (delete "keyword" p))))))
              (find (QObj match get "keyword" p with
                          | Some kw =>
                              if truthy (Some kw)
                              then [("name", QObj [("$regex", kw);
                                                   ("$options", QStr "i")])]
                              else []
                          | None => []
                          end)
                    find_all))).
  { intros p. unfold listing_conditions. rewrite filter_condition.
    reflexivity. }
  rewrite !Hconds. unfold without_paging.
  rewrite !get_delete_other by discriminate.
  f_equal. f_equal. f_equal. f_equal. f_equal.
  unfold delete. rewrite !filter_both. apply filter_ext. intros kv.
  destruct (negb (String.eqb (fst kv) "limit"));
    destruct (negb (String.eqb (fst kv) "page"));
    destruct (negb (String.eqb (fst kv) "keyword")); reflexivity.
Qed.

(** X12.  The counts of the listing do not depend on the page asked for: two
    requests that differ in [page] and [limit] only report the same filtered
    count and the same total count. *)
Theorem getAllProducts_counts_ignore_paging
    (q q' : QueryString) (collection : list Product) (r r' : Response) :
  without_paging q = without_paging q' ->
  getAllProducts q collection = Some r ->
  getAllProducts q' collection = Some r' ->
  filteredProductsCount r = filteredProductsCount r'
  /\ productsCount r = productsCount r'.
Proof.
  intros Hsame H H'.
  destruct (getAllProducts_steps q collection r H)
    as [matched [Hm [_ [Hcount [_ Hfiltered]]]]].
  destruct (getAllProducts_steps q' collection r' H')
    as [matched' [Hm' [_ [Hcount' [_ Hfiltered']]]]].
  rewrite (listing_conditions_without_paging q), Hsame,
    <- (listing_conditions_without_paging q') in Hm.
  rewrite Hm in Hm'. assert (Heq : matched = matched') by congruence.
  subst matched'. split; congruence.
Qed.

Lemma getAllProducts_counts_ignore_paging_witness :
  without_paging [("page", QStr "2"); ("limit", QStr "1")]
  = without_paging []
  /\ getAllProducts [("page", QStr "2"); ("limit", QStr "1")] [widget; gadget]
     = Some {| products := [gadget]; productsCount := 2;
               resultPerPage := Fin 1; filteredProductsCount := 2 |}
  /\ getAllProducts [] [widget; gadget]
     = Some {| products := [widget; gadget]; productsCount := 2;
               resultPerPage := Fin 8; filteredProductsCount := 2 |}
  /\ 2%nat = 2%nat.
Proof.
  assert (Hs : without_paging [("page", QStr "2"); ("limit", QStr "1")]
               = without_paging []) by reflexivity.
  assert (H : getAllProducts [("page", QStr "2"); ("limit", QStr "1")]
                             [widget; gadget]
              = Some {| products := [gadget]; productsCount := 2;
                        resultPerPage := Fin 1; filteredProductsCount := 2 |})
    by (vm_compute; reflexivity).
  assert (H' : getAllProducts [] [widget; gadget]
               = Some {| products := [widget; gadget]; productsCount := 2;
                         resultPerPage := Fin 8; filteredProductsCount := 2 |})
    by (vm_compute; reflexivity).
  split; [exact Hs|]. split; [exact H|]. split; [exact H'|].
  exact (proj1 (getAllProducts_counts_ignore_paging _ _ _ _ _ Hs H H')).
Defined.

End ListingPaging.

(** * Further properties of [filter()] *)

Section FilterValues.

Import JS Qs Json ProductController Store ApiFeatures Notions Samples Wellformed.

Local Open Scope list_scope.

(** X13.  The rewrite only adds dollar signs: without them, the text that
    [filter()] parses is the text that [JSON.stringify] wrote, and it is at
    least as long. *)
Theorem replace_operators_only_adds_dollars (l : Text) (after_word : bool) :
  List.filter (fun c => negb (Ascii.eqb c "$"))
              (replace_operators after_word l)
  = List.filter (fun c => negb (Ascii.eqb c "$")) l
  /\ (List.length l <= List.length (replace_operators after_word l))%nat.
Proof.
  revert after_word. induction l as [|c l IH]; intros after_word.
  - split; [reflexivity|apply Nat.le_refl].
  - destruct (IH (is_word c)) as [IHf IHl]. cbn [replace_operators].
    destruct (boundary after_word (c :: l));
      [destruct (match_operator (c :: l))|];
      cbn [List.filter List.length Ascii.eqb Bool.eqb negb];
      rewrite IHf; split; try reflexivity; lia.
Qed.

Lemma in_obj_set (k : string) (v : QVal) (obj : list (string * QVal))
    (kv : string * QVal) :
  In kv (obj_set k v obj) -> kv = (k, v) \/ In kv obj.
Proof.
  induction obj as [|[k' v'] obj IH]; cbn [obj_set].
  - intros [H|[]]. left. symmetry. exact H.
  - destruct (String.eqb_spec k' k) as [Heq|Hne].
    + intros [H|H]; [left; subst k'; symmetry; exact H|right; right; exact H].
    + intros [H|H]; [right; left; exact H|].
      destruct (IH H) as [H'|H']; [left; exact H'|right; right; exact H'].
Qed.

Lemma in_build_object (members : list (string * QVal)) (kv : string * QVal) :
  In kv (build_object members) -> In kv members.
Proof.
  unfold build_object.
  assert (H : forall acc,
             In kv (fold_left (fun obj x => obj_set (fst x) (snd x) obj)
                              members acc) ->
             In kv acc \/ In kv members).
  { induction members as [|[k v] members IH]; intros acc; cbn [fold_left].
    - intros Hin. left. exact Hin.
    - intros Hin. destruct (IH _ Hin) as [Hacc|Hm]; [|right; right; exact Hm].
      cbn [fst snd] in Hacc. destruct (in_obj_set _ _ _ _ Hacc) as [Heq|Hacc'];
        [right; left; symmetry; exact Heq|left; exact Hacc']. }
  intros Hin. destruct (H [] Hin) as [[]|Hm]. exact Hm.
Qed.

(** X14.  [filter()] rewrites the values as it rewrites the keys: each entry of
    its condition is an entry of the parameters, other than [keyword], [page]
    and [limit], with the dollar signs put in its key and in every string and
    key of its value. *)
Theorem filter_entries_rewritten (this : ApiFeatures) :
  exists entries,
    filter this
    = Some {| query := find (QObj entries) (query this);
              queryStr := queryStr this |}
    /\ forall key value,
         In (key, value) entries ->
         exists k v,
           In (k, v) (queryStr this) /\ ~ In k removeFields
           /\ key = with_dollars k
           /\ value = rebuilt (rewritten v)
           /\ forall s, v = QStr s -> value = QStr (with_dollars s).
Proof.
  exists (build_object
            (map (fun kv => (fst kv, rebuilt (snd kv)))
                 (map (fun kv => (with_dollars (fst kv), rewritten (snd kv)))
                      (queryCopy this)))).
  split; [rewrite filter_condition; reflexivity|].
  intros key value Hin. apply in_build_object in Hin.
  rewrite map_map in Hin. cbn [fst snd] in Hin.
  apply in_map_iff in Hin. destruct Hin as [[k v] [Heq Hin]].
  cbn [fst snd] in Heq. apply in_queryCopy in Hin. destruct Hin as [Hin Hnot].
  exists k, v. split; [exact Hin|]. split; [exact Hnot|].
  split; [congruence|]. split; [congruence|].
  intros s Hs. subst v. cbn [rewritten rebuilt] in Heq. congruence.
Qed.

Lemma filter_entries_rewritten_witness :
  exists entries,
    filter (listing [("category", QStr "lt")])
    = Some {| query := find (QObj entries) find_all;
              queryStr := [("category", QStr "lt")] |}
    /\ forall key value,
         In (key, value) entries ->
         exists k v,
           In (k, v) [("category", QStr "lt")] /\ ~ In k removeFields
           /\ key = with_dollars k
           /\ value = rebuilt (rewritten v)
           /\ forall s, v = QStr s -> value = QStr (with_dollars s).
Proof.
  exact (filter_entries_rewritten (listing [("category", QStr "lt")])).
Defined.

End FilterValues.

Section FilterPlain.

Import JS Qs Json ProductController Store ApiFeatures Notions Samples Wellformed.

Local Open Scope list_scope.

(** Without a bare word, the rewrite adds nothing. *)
Lemma dollar_operators_free (l : Text) (after_word : bool) :
  bare_operator after_word l = false ->
  dollar_operators after_word l = l.
Proof.
  revert after_word. induction l as [|c l IH]; intros after_word Hfree.
  - reflexivity.
  - cbn [bare_operator] in Hfree. apply orb_false_iff in Hfree.
    destruct Hfree as [Hhere Hrest].
    cbn [dollar_operators]. rewrite (IH _ Hrest).
    destruct (match_operator (c :: l)) as [w|] eqn:Hm.
    + rewrite andb_true_r in Hhere. apply negb_false_iff in Hhere.
      subst after_word. cbn [boundary].
      rewrite (match_operator_word l c w Hm). reflexivity.
    + destruct (boundary after_word (c :: l)); reflexivity.
Qed.

Lemma with_dollars_free (s : string) : operator_free s -> with_dollars s = s.
Proof.
  intros Hfree. unfold with_dollars.
  rewrite (dollar_operators_free _ false Hfree).
  apply string_of_list_ascii_of_string.
Qed.

Lemma plain_items (items : list QVal) :
  plain (QArr items) <-> Forall plain items.
Proof.
  cbn [plain]. induction items as [|v items IH].
  - split; [constructor|exact (fun _ => I)].
  - split.
    + intros [Hv Hall]. constructor; [exact Hv|apply IH; exact Hall].
    + intros Hall. inversion Hall as [|v' items' Hv Hitems]; subst.
      split; [exact Hv|apply IH; exact Hitems].
Qed.

Lemma plain_fields (fields : list (string * QVal)) :
  plain (QObj fields)
  <-> NoDup (map fst fields)
      /\ Forall (fun kv => operator_free (fst kv) /\ plain (snd kv)) fields.
Proof.
  cbn [plain]. apply and_iff_compat_l.
  induction fields as [|kv fields IH].
  - split; [constructor|exact (fun _ => I)].
  - split.
    + intros [Hk [Hv Hall]]. constructor; [split; assumption|].
      apply IH. exact Hall.
    + intros Hall. inversion Hall as [|kv' fields' [Hk Hv] Hfields]; subst.
      split; [exact Hk|]. split; [exact Hv|]. apply IH. exact Hfields.
Qed.

Lemma obj_set_new (k : string) (v : QVal) (obj : list (string * QVal)) :
  ~ In k (map fst obj) -> obj_set k v obj = obj ++ [(k, v)].
Proof.
  induction obj as [|[k' v'] obj IH]; intros Hnot; cbn [obj_set app].
  - reflexivity.
  - destruct (String.eqb_spec k' k) as [Heq|Hne].
    + exfalso. apply Hnot. left. exact Heq.
    + rewrite IH; [reflexivity|]. intros Hin. apply Hnot. right. exact Hin.
Qed.

(** An object with distinct keys is rebuilt as it is. *)
Lemma build_object_distinct (members : list (string * QVal)) :
  NoDup (map fst members) -> build_object members = members.
Proof.
  unfold build_object.
  assert (H : forall acc,
             NoDup (map fst (acc ++ members)) ->
             fold_left (fun obj kv => obj_set (fst kv) (snd kv) obj) members acc
             = acc ++ members).
  { induction members as [|[k v] members IH]; intros acc Hnodup;
      cbn [fold_left].
    - symmetry. apply app_nil_r.
    - cbn [fst snd]. rewrite obj_set_new.
      + rewrite IH; rewrite <- app_assoc; [reflexivity|exact Hnodup].
      + rewrite map_app in Hnodup. cbn [map fst] in Hnodup.
        apply NoDup_remove_2 in Hnodup. intros Hin. apply Hnodup.
        apply in_or_app. left. exact Hin. }
  intros Hnodup. exact (H [] Hnodup).
Qed.

Lemma map_same {A : Type} (f : A -> A) (l : list A) :
  Forall (fun a => f a = a) l -> map f l = l.
Proof.
  intros Hall. induction Hall as [|a l Ha Hall IH]; [reflexivity|].
  cbn [map]. rewrite Ha, IH. reflexivity.
Qed.

(** The rewrite and the parse leave a plain value as it is. *)
Lemma plain_unchanged (v : QVal) :
  plain v -> rewritten v = v /\ rebuilt v = v.
Proof.
  induction v as [s|items IH|fields IH] using QVal_induction; intros Hplain.
  - cbn [plain] in Hplain. cbn [rewritten rebuilt].
    rewrite (with_dollars_free s Hplain). split; reflexivity.
  - apply plain_items in Hplain. cbn [rewritten rebuilt].
    assert (Hboth : Forall (fun w => rewritten w = w /\ rebuilt w = w) items).
    { apply Forall_forall. intros w Hin.
      apply (proj1 (Forall_forall _ _) IH w Hin).
      apply (proj1 (Forall_forall _ _) Hplain w Hin). }
    split; f_equal; apply map_same;
      (eapply Forall_impl; [|exact Hboth]); intros w [H1 H2]; assumption.
  - apply plain_fields in Hplain. destruct Hplain as [Hnodup Hall].
    cbn [rewritten rebuilt].
    assert (Hrw : map (fun kv => (with_dollars (fst kv), rewritten (snd kv)))
                      fields = fields).
    { apply map_same. apply Forall_forall. intros [k w] Hin. cbn [fst snd].
      destruct (proj1 (Forall_forall _ _) Hall (k, w) Hin) as [Hk Hw].
      cbn [fst snd] in Hk, Hw.
      destruct (proj1 (Forall_forall _ _) IH (k, w) Hin Hw) as [H1 _].
      cbn [snd] in H1. rewrite (with_dollars_free k Hk), H1. reflexivity. }
    assert (Hrb : map (fun kv => (fst kv, rebuilt (snd kv))) fields = fields).
    { apply map_same. apply Forall_forall. intros [k w] Hin. cbn [fst snd].
      destruct (proj1 (Forall_forall _ _) Hall (k, w) Hin) as [_ Hw].
      cbn [snd] in Hw.
      destruct (proj1 (Forall_forall _ _) IH (k, w) Hin Hw) as [_ H2].
      cbn [snd] in H2. rewrite H2. reflexivity. }
    split; [rewrite Hrw; reflexivity|].
    rewrite Hrb, (build_object_distinct fields Hnodup). reflexivity.
Qed.

(** X15.  Parameters that do not hold gt, gte, lt or lte as a bare word pass
    through [filter()] untouched: when the copy without [keyword], [page] and
    [limit] is plain (distinct keys in each object, no bare word in a key or
    in a string), it is the condition. *)
Theorem filter_plain_parameters (this : ApiFeatures) :
  plain (QObj (queryCopy this)) ->
  filter this
  = Some {| query := find (QObj (queryCopy this)) (query this);
            queryStr := queryStr this |}.
Proof.
  intros Hplain. rewrite filter_condition.
  destruct (plain_unchanged (QObj (queryCopy this)) Hplain) as [Hrw Hrb].
  rewrite Hrw, Hrb. reflexivity.
Qed.

End FilterPlain.

Section FilterPlainInstances.

Import JS Qs Json ProductController Store ApiFeatures Notions Samples Wellformed.

Local Open Scope list_scope.

Lemma filter_plain_parameters_witness :
  plain (QObj (queryCopy (listing [("keyword", QStr "gt"); ("page", QStr "2");
                                   ("category", QStr "salt, default")])))
  /\ filter (listing [("keyword", QStr "gt"); ("page", QStr "2");
                      ("category", QStr "salt, default")])
     = Some {| query := find (QObj [("category", QStr "salt, default")])
                             find_all;
               queryStr := [("keyword", QStr "gt"); ("page", QStr "2");
                            ("category", QStr "salt, default")] |}.
Proof.
  assert (H : plain (QObj (queryCopy
                             (listing [("keyword", QStr "gt");
                                       ("page", QStr "2");
                                       ("category", QStr "salt, default")])))).
  { change (plain (QObj [("category", QStr "salt, default")])).
    cbn [plain map fst snd]. split.
    - constructor; [intros []|constructor].
    - split; [reflexivity|]. split; [reflexivity|exact I]. }
  split; [exact H|].
  exact (filter_plain_parameters
           (listing [("keyword", QStr "gt"); ("page", QStr "2");
                     ("category", QStr "salt, default")]) H).
Defined.

End FilterPlainInstances.

(** * The error middleware *)

Section Errors.

Import JS Qs ErrorMiddleware Wellformed.

(** X16.  What the client learns of an error.  An [ErrorHandler] is answered with
    its own status and message.  Any other error is answered with 400, 401 or
    500 and a message that does not depend on the message of the error; and
    the stack is sent in the development environment only. *)
Theorem errorMiddleware_response (env : option string) (err : Err) :
  (isErrorHandler err = true ->
   status (errorMiddleware env err) = err_statusCode err
   /\ message (errorMiddleware env err) = err_message err)
  /\ (isErrorHandler err = false ->
      In (status (errorMiddleware env err)) [400; 401; 500]%nat
      /\ forall err',
           same_kind err err' ->
           status (errorMiddleware env err') = status (errorMiddleware env err)
           /\ message (errorMiddleware env err')
              = message (errorMiddleware env err))
  /\ (env <> Some "development" -> stack (errorMiddleware env err) = None).
Proof.
  split; [|split].
  - intros Hh. unfold errorMiddleware, status_and_message. rewrite Hh.
    split; reflexivity.
  - intros Hh. split.
    + unfold errorMiddleware, status_and_message. rewrite Hh.
      destruct (String.eqb (err_name err) "CastError");
        destruct (duplicate_key err);
        destruct (String.eqb (err_name err) "JsonWebTokenError");
        destruct (String.eqb (err_name err) "TokenExpiredError");
        cbn [status In]; auto.
    + intros err' [Hk [Hname [Hcode [Hkeys Hpath]]]].
      unfold errorMiddleware, status_and_message, duplicate_key.
      rewrite <- Hk, <- Hname, <- Hcode, <- Hkeys, <- Hpath, Hh.
      destruct (String.eqb (err_name err) "CastError");
        destruct (match err_code err with
                  | Some (VNum n) => num_eqb n (Fin 11000)
                  | _ => false
                  end);
        destruct (String.eqb (err_name err) "JsonWebTokenError");
        destruct (String.eqb (err_name err) "TokenExpiredError");
        split; reflexivity.
  - intros Henv. unfold errorMiddleware. cbn [stack].
    destruct env as [e|]; [|reflexivity].
    destruct (String.eqb_spec e "development") as [Heq|_]; [|reflexivity].
    exfalso. apply Henv. rewrite Heq. reflexivity.
Qed.

Lemma errorMiddleware_response_witness :
  let err := {| isErrorHandler := false; err_name := "ValidationError";
                err_message := "ratings: Path `ratings` (26) is more than 5";
                err_statusCode := 0; err_code := None; err_keyValue := None;
                err_path := None; err_stack := Some "at model.validate" |} in
  isErrorHandler err = false
  /\ Some "PRODUCTION" <> Some "development"
  /\ errorMiddleware (Some "PRODUCTION") err
     = {| status := 500; message := "Internal Server Error"; stack := None |}
  /\ In (status (errorMiddleware (Some "PRODUCTION") err)) [400; 401; 500]%nat
  /\ stack (errorMiddleware (Some "PRODUCTION") err) = None.
Proof.
  cbv zeta. split; [reflexivity|]. split; [discriminate|].
  split; [reflexivity|]. split.
  - apply (proj1 (proj2 (errorMiddleware_response (Some "PRODUCTION") _))).
    reflexivity.
  - apply (proj2 (proj2 (errorMiddleware_response (Some "PRODUCTION") _))).
    discriminate.
Defined.

End Errors.

